(** * envoi_emails: bulk sending of personalised emails

    A shallow embedding of [envoi_emails.py] and the properties of its
    bulk send loop, its templating and its error policy.

    Python values are modelled by the small type [value]; a contact (a
    [dict] produced by [csv.DictReader] or built from an SQLite row) is
    a finite map from field names to values.  Text is [string]: the
    template files are read as ISO-8859-1, one character per byte. *)

From Stdlib Require Import ZArith Lia Ascii String List.
From stdpp Require Import base strings gmap list pretty.
Import ListNotations.

Local Open Scope string_scope.
Local Open Scope Z_scope.
Local Open Scope list_scope.

(** ** Python values held by a contact *)

(** A CSV row maps every header to a [str], or to [None] when the row is
    short ([restval]); an SQLite row also carries integers (the default
    query selects on the integer column [active]).  The surplus cells of
    a long CSV row, which [csv.DictReader] files under the key [None],
    are left out: no placeholder and no [get('email')] reaches them. *)
Inductive value : Type :=
  | VNone
  | VStr (s : string)
  | VInt (n : Z).

(** [str(v)] *)
Definition py_str (v : value) : string :=
  match v with
  | VNone => "None"
  | VStr s => s
  | VInt n => pretty n
  end.

(** [bool(v)], the test behind [if not v]. *)
Definition truthy (v : value) : bool :=
  match v with
  | VNone => false
  | VStr s => negb (String.eqb s "")
  | VInt n => negb (n =? 0)
  end.

Abbreviation Contact := (gmap string value).

(** [contact.get(key)]: the value, or [None] when the key is absent. *)
Definition dict_get (contact : Contact) (key : string) : value :=
  match contact !! key with
  | Some v => v
  | None => VNone
  end.

(** ** [string.Template.safe_substitute]

    The standard library scans the template with the pattern
<<
    \$(?:(?P<escaped>\$) | (?P<named>id) | {(?P<braced>id)} | (?P<invalid>))
>>
    where [id] is an ASCII letter or underscore followed by ASCII letters,
    digits and underscores (the pattern is compiled with [IGNORECASE]),
    and replaces every match by what [convert] returns. *)

Module Template.

Definition in_range (lo hi : N) (c : ascii) : bool :=
  ((lo <=? N_of_ascii c) && (N_of_ascii c <=? hi))%N.

Definition is_dollar (c : ascii) : bool := Ascii.eqb c "$".

(** [[_a-z]], ignoring case *)
Definition id_start (c : ascii) : bool :=
  Ascii.eqb c "_" || in_range 97 122 c || in_range 65 90 c.

(** [[_a-z0-9]], ignoring case *)
Definition id_char (c : ascii) : bool :=
  id_start c || in_range 48 57 c.

(** The longest run of [id_char] at the head of [s], and what follows. *)
Fixpoint span_id (s : string) : string * string :=
  match s with
  | String c rest =>
      if id_char c
      then let (id, tail) := span_id rest in (String c id, tail)
      else (EmptyString, s)
  | EmptyString => (EmptyString, EmptyString)
  end.

(** The alternative of the pattern that matched, with its group. *)
Inductive group : Type :=
  | Escaped
  | Named (id : string)
  | Braced (id : string)
  | Invalid.

(** The match found at a ["$"], given the text [rest] after it.  The
    alternatives are tried in the order of the pattern; the identifier
    is greedy, and the last alternative matches the empty string. *)
Definition match_after_dollar (rest : string) : group :=
  match rest with
  | String c tail =>
      if is_dollar c then Escaped
      else if id_start c then Named (fst (span_id rest))
      else if Ascii.eqb c "{" then
        match tail with
        | String c' _ =>
            if id_start c' then
              match span_id tail with
              | (id, String c'' _) =>
                  if Ascii.eqb c'' "}" then Braced id else Invalid
              | (_, EmptyString) => Invalid
              end
            else Invalid
        | EmptyString => Invalid
        end
      else Invalid
  | EmptyString => Invalid
  end.

(** [mo.group()]: the text of the whole match. *)
Definition group_text (g : group) : string :=
  match g with
  | Escaped => "$$"
  | Named id => "$" +:+ id
  | Braced id => "${" +:+ id +:+ "}"
  | Invalid => "$"
  end.

(** The callback [convert] of [safe_substitute]: a known name becomes
    [str(mapping[name])], an unknown one (the [KeyError] branch) and an
    ill-formed ["$"] are returned as they stand. *)
Definition convert (mapping : Contact) (g : group) : string :=
  match g with
  | Named id | Braced id =>
      match mapping !! id with
      | Some v => py_str v
      | None => group_text g
      end
  | Escaped => "$"
  | Invalid => group_text g
  end.

(** [pattern.sub(convert, template)]: [skip] counts the characters
    still covered by the match that was just replaced. *)
Fixpoint sub (mapping : Contact) (skip : nat) (s : string) : string :=
  match s with
  | EmptyString => EmptyString
  | String c rest =>
      match skip with
      | S k => sub mapping k rest
      | O =>
          if is_dollar c then
            let g := match_after_dollar rest in
            convert mapping g
              +:+ sub mapping (Nat.pred (String.length (group_text g))) rest
          else String c (sub mapping 0 rest)
      end
  end.

Definition safe_substitute (template : string) (mapping : Contact) : string :=
  sub mapping 0 template.

(** Words for stating what a template contains: [s] is made of
    identifier characters; [s] is an identifier; [s] goes on with an
    identifier character. *)
Fixpoint all_id_chars (s : string) : bool :=
  match s with
  | EmptyString => true
  | String c rest => id_char c && all_id_chars rest
  end.

Definition is_identifier (s : string) : bool :=
  match s with
  | String c rest => id_start c && all_id_chars rest
  | EmptyString => false
  end.

Definition starts_with_id_char (s : string) : bool :=
  match s with
  | String c _ => id_char c
  | EmptyString => false
  end.

(** The template as the scan cuts it: plain characters and matches of
    the pattern. *)
Inductive token : Type :=
  | Plain (c : ascii)
  | Match (g : group).

Fixpoint scan (skip : nat) (s : string) : list token :=
  match s with
  | EmptyString => []
  | String c rest =>
      match skip with
      | S k => scan k rest
      | O =>
          if is_dollar c then
            let g := match_after_dollar rest in
            Match g :: scan (Nat.pred (String.length (group_text g))) rest
          else Plain c :: scan 0 rest
      end
  end.

Definition tokens (template : string) : list token := scan 0 template.

(** The text a token stands for in the template. *)
Definition token_text (t : token) : string :=
  match t with
  | Plain c => String c EmptyString
  | Match g => group_text g
  end.

(** The text a token becomes in the output. *)
Definition render (mapping : Contact) (t : token) : string :=
  match t with
  | Plain c => String c EmptyString
  | Match g => convert mapping g
  end.

Fixpoint concat (parts : list string) : string :=
  match parts with
  | [] => EmptyString
  | part :: parts' => part +:+ concat parts'
  end.

End Template.

(** ** The world outside the program

    Everything the program does to the outside (SMTP operations, file
    and database reads, sleeping, logging) is recorded in a trace, and
    so is every entry into [EmailSender.send_email], with its arguments.
    The outside answers through an environment: whether the n-th SMTP
    operation of the run succeeds or raises, whether the system call
    behind [time.sleep] accepts a delay, and what each file or query
    yields ([None] when opening, reading or parsing raises).

    [time.sleep] either returns or raises: CPython refuses a delay
    that its clock cannot hold, and the system call can refuse one it
    accepts.  What the model takes for granted: [logging] calls return;
    the system call gives the same verdict on the same delay throughout
    a run; and no signal interrupts the run. *)

Record Message : Type := {
  msg_from : string;
  msg_to : value;
  msg_subject : string;
  msg_text : option string;
  msg_html : string
}.

Inductive smtp_op : Type :=
  | SMTP_open (server : string) (port : Z)
  | SMTP_ehlo
  | SMTP_starttls
  | SMTP_login (username password : string)
  | SMTP_send_message (msg : Message)
  | SMTP_quit.

(** Exceptions, all of them instances of Python's [Exception]. *)
Inductive exn : Type :=
  | SMTPException (op : smtp_op)
  | OSError (path : string)
  | TypeError
  | ValueError
  | OverflowError
  | ClockOSError.

Inductive level : Type := INFO | WARNING | ERROR.

(** One constructor per [logging] call of the source. *)
Inductive log_record : Type :=
  | LogSmtpConnected
  | LogSmtpConnectError (e : exn)
  | LogSmtpDisconnected
  | LogEmailSent (to_email : value)
  | LogEmailError (to_email : value) (e : exn)
  | LogCsvLoaded (n : nat) (csv_file : string)
  | LogCsvError (e : exn)
  | LogSqliteLoaded (n : nat)
  | LogSqliteError (e : exn)
  | LogTemplateError (e : exn)
  | LogPersonalizeError (e : exn)
  | LogTestMode
  | LogStart (total_emails : Z)
  | LogNoEmail (position : nat)
  | LogDone (sent_count failed_count : nat)
  | LogNoHtmlTemplate
  | LogNoContacts.

Definition level_of (r : log_record) : level :=
  match r with
  | LogSmtpConnected | LogSmtpDisconnected | LogEmailSent _
  | LogCsvLoaded _ _ | LogSqliteLoaded _ | LogTestMode | LogStart _
  | LogDone _ _ => INFO
  | LogNoEmail _ => WARNING
  | LogSmtpConnectError _ | LogEmailError _ _ | LogCsvError _
  | LogSqliteError _ | LogTemplateError _ | LogPersonalizeError _
  | LogNoHtmlTemplate | LogNoContacts => ERROR
  end.

Inductive event : Type :=
  | Log (r : log_record)
  | Smtp (op : smtp_op) (ok : bool)
  | Sleep (seconds : Z)
  | OpenText (path : string)
  | OpenCsv (path : string)
  | SqliteQuery (db_file query : string)
  | SendEmailCall (from_email : string) (to_email : value) (subject : string)
      (message_html message_text : option string).

Record Env : Type := {
  smtp_ok : nat -> bool;
  sleep_ok : Z -> bool;
  read_text : string -> option string;
  read_csv : string -> option (list Contact);
  run_query : string -> string -> option (list Contact)
}.

(** The object [smtplib.SMTP(server, port)]. *)
Inductive SMTP : Type := SMTP_session (server : string) (port : Z).

(** The mutable state of a run: the attribute [smtp_session] of the one
    [EmailSender] of the run, the number of SMTP operations performed so
    far, and the trace, oldest event first. *)
Record State : Type := {
  smtp_session : option SMTP;
  smtp_calls : nat;
  trace : list event
}.

(** ** State and exception monad *)

Inductive result (A : Type) : Type :=
  | Ret (a : A)
  | Raise (e : exn).
Arguments Ret {A} a.
Arguments Raise {A} e.

Definition M (A : Type) : Type := Env -> State -> result A * State.

Definition ret {A} (a : A) : M A := fun _ st => (Ret a, st).

Definition raise {A} (e : exn) : M A := fun _ st => (Raise e, st).

Definition bind {A B} (c : M A) (k : A -> M B) : M B :=
  fun E st =>
    match c E st with
    | (Ret a, st') => k a E st'
    | (Raise e, st') => (Raise e, st')
    end.

Declare Scope prog_scope.
Delimit Scope prog_scope with prog.
Notation "x <- c ;; k" := (bind c (fun x => k))
  (at level 100, c at next level, right associativity) : prog_scope.
Notation "c ;; k" := (bind c (fun _ => k))
  (at level 100, right associativity) : prog_scope.
Local Open Scope prog_scope.

(** [try: body except Exception as e: handler(e)] *)
Definition try_except {A} (body : M A) (handler : exn -> M A) : M A :=
  fun E st =>
    match body E st with
    | (Ret a, st') => (Ret a, st')
    | (Raise e, st') => handler e E st'
    end.

(** [try: body finally: cleanup]: the cleanup runs on both exits; an
    exception of the cleanup replaces the outcome of the body. *)
Definition try_finally {A} (body : M A) (cleanup : M unit) : M A :=
  fun E st =>
    match body E st with
    | (r, st') =>
        match cleanup E st' with
        | (Ret _, st'') => (r, st'')
        | (Raise e, st'') => (Raise e, st'')
        end
    end.

(** The state once [ev] has been added to the trace. *)
Definition record (ev : event) (st : State) : State :=
  {| smtp_session := smtp_session st;
     smtp_calls := smtp_calls st;
     trace := trace st ++ [ev] |}.

Definition emit (ev : event) : M unit := fun _ st => (Ret tt, record ev st).

Definition log (r : log_record) : M unit := emit (Log r).

Definition get_session : M (option SMTP) :=
  fun _ st => (Ret (smtp_session st), st).

Definition set_session (s : option SMTP) : M unit :=
  fun _ st =>
    (Ret tt, {| smtp_session := s;
                smtp_calls := smtp_calls st;
                trace := trace st |}).

(** One call into [smtplib]: it returns, or raises. *)
Definition smtp (op : smtp_op) : M unit :=
  fun E st =>
    let ok := smtp_ok E (smtp_calls st) in
    (if ok then Ret tt else Raise (SMTPException op),
     {| smtp_session := smtp_session st;
        smtp_calls := S (smtp_calls st);
        trace := trace st ++ [Smtp op ok] |}).

(** What a call [time.sleep(seconds)] with an [int] ends in: [None]
    when it returns.  CPython first converts the delay to nanoseconds
    in a signed 64-bit integer and raises [OverflowError] when it does
    not fit, then raises [ValueError] on a negative delay; the outcome
    of the system call is the platform's ([OSError] when it refuses). *)
Definition sleep_outcome (E : Env) (seconds : Z) : option exn :=
  if (2 ^ 63 - 1 <? seconds * 10 ^ 9) || (seconds * 10 ^ 9 <? - 2 ^ 63)
  then Some OverflowError
  else if seconds <? 0 then Some ValueError
  else if sleep_ok E seconds then None
  else Some ClockOSError.

(** [time.sleep(seconds)]; the event records the call. *)
Definition sleep (seconds : Z) : M unit :=
  emit (Sleep seconds);;
  fun E st =>
    match sleep_outcome E seconds with
    | None => (Ret tt, st)
    | Some e => (Raise e, st)
    end.

(** [with open(path, 'r', encoding='ISO-8859-1') as file: file.read()] *)
Definition open_read (path : string) : M string :=
  emit (OpenText path);;
  fun E st =>
    match read_text E path with
    | Some content => (Ret content, st)
    | None => (Raise (OSError path), st)
    end.

(** Opening [path] and collecting the rows of its [csv.DictReader]. *)
Definition open_csv (path : string) : M (list Contact) :=
  emit (OpenCsv path);;
  fun E st =>
    match read_csv E path with
    | Some rows => (Ret rows, st)
    | None => (Raise (OSError path), st)
    end.

(** Connecting to [db_file], executing [query] and zipping every row
    with the column names. *)
Definition sqlite_rows (db_file query : string) : M (list Contact) :=
  emit (SqliteQuery db_file query);;
  fun E st =>
    match run_query E db_file query with
    | Some rows => (Ret rows, st)
    | None => (Raise (OSError db_file), st)
    end.

(** [bool(s)] for a [str], and for an optional [str]. *)
Definition nonempty (s : string) : bool := negb (String.eqb s "").

Definition opt_truthy (o : option string) : bool :=
  match o with
  | Some s => nonempty s
  | None => false
  end.

(** ** EmailSender *)

Module EmailSender.

(** The attributes set by [__init__]; [smtp_session] is in [State]. *)
Record t : Type := {
  server : string;
  port : Z;
  username : string;
  password : string
}.

Definition connect (self : t) : M bool :=
  try_except
    (smtp (SMTP_open (server self) (port self));;
     set_session (Some (SMTP_session (server self) (port self)));;
     smtp SMTP_ehlo;;
     smtp SMTP_starttls;;
     smtp (SMTP_login (username self) (password self));;
     log LogSmtpConnected;;
     ret true)
    (fun e => log (LogSmtpConnectError e);; ret false).

Definition disconnect (self : t) : M unit :=
  session <- get_session;;
  match session with
  | Some _ => smtp SMTP_quit;; log LogSmtpDisconnected
  | None => ret tt
  end.

(** The [try] block of [send_email]: the message is composed (the text
    part only when [message_text] is truthy; [MIMEText] raises on a
    [None] body) and handed to the session. *)
Definition compose_and_send (from_email : string) (to_email : value)
    (subject : string) (message_html message_text : option string) : M bool :=
  try_except
    (html <- match message_html with
             | Some h => ret h
             | None => raise TypeError
             end;;
     smtp (SMTP_send_message
             {| msg_from := from_email;
                msg_to := to_email;
                msg_subject := subject;
                msg_text := if opt_truthy message_text then message_text else None;
                msg_html := html |});;
     log (LogEmailSent to_email);;
     ret true)
    (fun e => log (LogEmailError to_email e);; ret false).

Definition send_email (self : t) (from_email : string) (to_email : value)
    (subject : string) (message_html message_text : option string) : M bool :=
  emit (SendEmailCall from_email to_email subject message_html message_text);;
  session <- get_session;;
  connected <- match session with
               | Some _ => ret true
               | None => connect self
               end;;
  if connected
  then compose_and_send from_email to_email subject message_html message_text
  else ret false.

End EmailSender.

(** ** ContactManager *)

Module ContactManager.

Definition get_contacts_from_csv (csv_file : string) : M (list Contact) :=
  try_except
    (contacts <- open_csv csv_file;;
     log (LogCsvLoaded (length contacts) csv_file);;
     ret contacts)
    (fun e => log (LogCsvError e);; ret []).

Definition default_query : string :=
  "SELECT * FROM contacts WHERE active = 1".

Definition get_contacts_from_sqlite (db_file : string)
    (query : option string) : M (list Contact) :=
  let query := match query with
               | Some q => q
               | None => default_query
               end in
  try_except
    (contacts <- sqlite_rows db_file query;;
     log (LogSqliteLoaded (length contacts));;
     ret contacts)
    (fun e => log (LogSqliteError e);; ret []).

End ContactManager.

(** ** TemplateManager *)

Module TemplateManager.

Definition load_template (template_file : string) : M (option string) :=
  try_except
    (template_content <- open_read template_file;;
     ret (Some template_content))
    (fun e => log (LogTemplateError e);; ret None).

(** The [try] block builds the [Template] and substitutes, neither of
    which raises on a [str] template and a [dict] of the values above;
    the [except] branch logs the error and returns [None]. *)
Definition personalize_message (template_content : string)
    (contact_data : Contact) : M (option string) :=
  try_except
    (ret (Some (Template.safe_substitute template_content contact_data)))
    (fun e => log (LogPersonalizeError e);; ret None).

End TemplateManager.

(** ** send_bulk_emails *)

Section BulkSend.

Variable email_sender : EmailSender.t.
Variable from_email : string.
Variables subject_template html_template : string.
Variable text_template : option string.
Variable delay : Z.

(** The values of [max_emails] and [total_emails] when the loop starts. *)
Variable max_emails : option Z.
Variable total_emails : Z.

(** [max_emails is not None and i >= max_emails] *)
Definition cap_reached (i : nat) : bool :=
  match max_emails with
  | Some m => Z.of_nat i >=? m
  | None => false
  end.

(** The body of the [for] loop after the [break] test, for the contact
    at index [i]; it returns the two counters. *)
Definition iteration (i : nat) (contact : Contact)
    (sent_count failed_count : nat) : M (nat * nat) :=
  let subject := Template.safe_substitute subject_template contact in
  html_message <- TemplateManager.personalize_message html_template contact;;
  text_message <- match text_template with
                  | Some t =>
                      if nonempty t
                      then TemplateManager.personalize_message t contact
                      else ret None
                  | None => ret None
                  end;;
  let recipient := dict_get contact "email" in
  if negb (truthy recipient) then
    log (LogNoEmail (S i));;
    ret (sent_count, S failed_count)
  else
    success <- EmailSender.send_email email_sender from_email recipient
                 subject html_message text_message;;
    let counts := if success : bool
                  then (S sent_count, failed_count)
                  else (sent_count, S failed_count) in
    (if (Z.of_nat i <? total_emails - 1) && (delay >? 0)
     then sleep delay
     else ret tt);;
    ret counts.

(** [for i, contact in enumerate(contacts)], from index [i] on. *)
Fixpoint send_loop (i : nat) (contacts : list Contact)
    (sent_count failed_count : nat) : M (nat * nat) :=
  match contacts with
  | [] => ret (sent_count, failed_count)
  | contact :: rest =>
      if cap_reached i then ret (sent_count, failed_count)
      else
        counts <- iteration i contact sent_count failed_count;;
        send_loop (S i) rest (fst counts) (snd counts)
  end.

End BulkSend.

(** [test_mode and (max_emails is None or max_emails > 3)] *)
Definition test_limit_applies (test_mode : bool) (max_emails : option Z) : bool :=
  test_mode && match max_emails with
               | Some m => m >? 3
               | None => true
               end.

Definition send_bulk_emails (email_sender : EmailSender.t) (from_email : string)
    (contacts : list Contact) (subject_template html_template : string)
    (text_template : option string) (delay : Z) (test_mode : bool)
    (max_emails : option Z) : M (nat * nat) :=
  let limited := test_limit_applies test_mode max_emails in
  let max_emails := if limited then Some 3 else max_emails in
  (if limited then log LogTestMode else ret tt);;
  let total_emails :=
    match max_emails with
    | Some m => Z.min (Z.of_nat (length contacts)) m
    | None => Z.of_nat (length contacts)
    end in
  log (LogStart total_emails);;
  counts <- send_loop email_sender from_email subject_template html_template
              text_template delay max_emails total_emails 0 contacts 0 0;;
  log (LogDone (fst counts) (snd counts));;
  ret counts.

(** ** main *)

Inductive Source : Type := csv | sqlite.

(** The namespace returned by [parser.parse_args()]. *)
Record Args : Type := {
  arg_source : Source;
  arg_source_file : string;
  arg_template : string;
  arg_text_template : option string;
  arg_subject : string;
  arg_from_email : string;
  arg_smtp_server : string;
  arg_smtp_port : Z;
  arg_smtp_user : string;
  arg_smtp_password : string;
  arg_delay : Z;
  arg_max_emails : option Z;
  arg_test : bool;
  arg_query : option string
}.

Definition load_contacts (args : Args) : M (list Contact) :=
  match arg_source args with
  | csv => ContactManager.get_contacts_from_csv (arg_source_file args)
  | sqlite =>
      ContactManager.get_contacts_from_sqlite (arg_source_file args)
        (arg_query args)
  end.

(** [EmailSender(args.smtp_server, args.smtp_port, args.smtp_user,
    args.smtp_password)] *)
Definition sender_of (args : Args) : EmailSender.t :=
  {| EmailSender.server := arg_smtp_server args;
     EmailSender.port := arg_smtp_port args;
     EmailSender.username := arg_smtp_user args;
     EmailSender.password := arg_smtp_password args |}.

(** The end of [main], from the creation of the [EmailSender] (whose
    [smtp_session] starts as [None]) on. *)
Definition send_all (args : Args) (html_template : string)
    (text_template : option string) (contacts : list Contact) : M unit :=
  let email_sender := sender_of args in
  set_session None;;
  try_finally
    (send_bulk_emails email_sender (arg_from_email args) contacts
       (arg_subject args) html_template text_template (arg_delay args)
       (arg_test args) (arg_max_emails args);;
     ret tt)
    (EmailSender.disconnect email_sender).

(** The optional text template: loaded only [if args.text_template]. *)
Definition load_text_template (args : Args) : M (option string) :=
  match arg_text_template args with
  | Some path =>
      if nonempty path
      then TemplateManager.load_template path
      else ret None
  | None => ret None
  end.

(** [main] once the HTML template is known to be a non-empty [str]. *)
Definition main_with_template (args : Args) (html_template : string) : M unit :=
  text_template <- load_text_template args;;
  contacts <- load_contacts args;;
  match contacts with
  | [] => log LogNoContacts
  | _ :: _ => send_all args html_template text_template contacts
  end.

(** [main] from the line after [args = parser.parse_args()] on:
    [argparse] has accepted the command line and returned [args] (it
    leaves the process through [SystemExit] otherwise, before anything
    is read or sent). *)
Definition main (args : Args) : M unit :=
  html_template <- TemplateManager.load_template (arg_template args);;
  match html_template with
  | Some content =>
      if nonempty content
      then main_with_template args content
      else log LogNoHtmlTemplate
  | None => log LogNoHtmlTemplate
  end.

(** The state in which a run starts. *)
Definition initial_state : State :=
  {| smtp_session := None; smtp_calls := 0; trace := [] |}.

(** ** Reading a trace *)

(** The events by which the loop handles one contact: the call of
    [send_email], or the warning of a contact without address. *)
Definition contact_step (ev : event) : bool :=
  match ev with
  | SendEmailCall _ _ _ _ _ => true
  | Log (LogNoEmail _) => true
  | _ => false
  end.

Definition is_sleep (ev : event) : bool :=
  match ev with
  | Sleep _ => true
  | _ => false
  end.

(** What [send_email] itself adds after the record of its call. *)
Definition transport_event (ev : event) : bool :=
  match ev with
  | Smtp _ _ => true
  | Log LogSmtpConnected | Log (LogSmtpConnectError _)
  | Log (LogEmailSent _) | Log (LogEmailError _ _) => true
  | _ => false
  end.

(** An event by which the run touches the mail transport. *)
Definition send_event (ev : event) : bool :=
  match ev with
  | SendEmailCall _ _ _ _ _ => true
  | Smtp _ _ => true
  | _ => false
  end.

Definition is_send_call (ev : event) : bool :=
  match ev with
  | SendEmailCall _ _ _ _ _ => true
  | _ => false
  end.

(** The calls of [send_email], in the order of the trace. *)
Definition attempts (evs : list event) : list event :=
  List.filter is_send_call evs.

(** The contacts handled, in the order of the trace. *)
Definition handled (evs : list event) : list event :=
  List.filter contact_step evs.

(** The handling of contacts together with the pauses between them. *)
Definition outline (evs : list event) : list event :=
  List.filter (fun ev => contact_step ev || is_sleep ev) evs.

Definition smtp_failed (ev : event) : bool :=
  match ev with
  | Smtp _ false => true
  | _ => false
  end.

(** ** What the loop is expected to do, contact by contact *)

Section Plan.

Variable from_email : string.
Variables subject_template html_template : string.
Variable text_template : option string.
Variable delay : Z.
Variable max_emails : option Z.
Variable total_emails : Z.

(** The step taken for the contact at index [i]: a call of [send_email]
    with the personalised message when the contact has an address, the
    warning otherwise. *)
Definition expected_step (i : nat) (contact : Contact) : event :=
  let recipient := dict_get contact "email" in
  if truthy recipient then
    SendEmailCall from_email recipient
      (Template.safe_substitute subject_template contact)
      (Some (Template.safe_substitute html_template contact))
      (match text_template with
       | Some t =>
           if nonempty t
           then Some (Template.safe_substitute t contact)
           else None
       | None => None
       end)
  else Log (LogNoEmail (S i)).

(** The pause that follows the send at index [i], if any. *)
Definition pause_after (i : nat) : list event :=
  if (Z.of_nat i <? total_emails - 1) && (delay >? 0)
  then [Sleep delay]
  else [].

Definition plan_contact (i : nat) (contact : Contact) : list event :=
  expected_step i contact
    :: (if truthy (dict_get contact "email") then pause_after i else []).

Fixpoint plan (i : nat) (contacts : list Contact) : list event :=
  match contacts with
  | [] => []
  | contact :: rest =>
      if cap_reached max_emails i then []
      else plan_contact i contact ++ plan (S i) rest
  end.

(** How many of [n] contacts are handled from index [i] on. *)
Definition iterations (i n : nat) : nat :=
  match max_emails with
  | Some m => Nat.min n (Z.to_nat (m - Z.of_nat i))
  | None => n
  end.

End Plan.

(** The value of [max_emails] once the test mode has been applied. *)
Definition effective_max (test_mode : bool) (max_emails : option Z) : option Z :=
  if test_limit_applies test_mode max_emails then Some 3 else max_emails.

(** The value of [total_emails]. *)
Definition effective_total (n : nat) (max_emails : option Z) : Z :=
  match max_emails with
  | Some m => Z.min (Z.of_nat n) m
  | None => Z.of_nat n
  end.

(** The smallest of the number of contacts, [maxEmails] when it is given
    and 3 in test mode. *)
Definition cap_bound (n : nat) (test_mode : bool) (max_emails : option Z) : Z :=
  let a := match max_emails with
           | Some m => Z.min (Z.of_nat n) m
           | None => Z.of_nat n
           end in
  if test_mode then Z.min a 3 else a.

(** The rows the contact source of [args] yields, [None] when reading
    it raises. *)
Definition source_rows (E : Env) (args : Args) : option (list Contact) :=
  match arg_source args with
  | csv => read_csv E (arg_source_file args)
  | sqlite =>
      run_query E (arg_source_file args)
        (match arg_query args with
         | Some q => q
         | None => ContactManager.default_query
         end)
  end.

(** The summary line, which a run logs once its loop has returned. *)
Definition summary_line (r : result (nat * nat)) : list event :=
  match r with
  | Ret (sent, failed) => [Log (LogDone sent failed)]
  | Raise _ => []
  end.


(** The log lines with which [send_bulk_emails] opens. *)
Definition opening_logs (test_mode : bool) (max_emails : option Z)
    (n : nat) : list event :=
  (if test_limit_applies test_mode max_emails then [Log LogTestMode] else [])
    ++ [Log (LogStart (effective_total n (effective_max test_mode max_emails)))].

(** What [disconnect] adds to the trace from the state [st]. *)
Definition closing_events (E : Env) (st : State) : list event :=
  match smtp_session st with
  | Some _ =>
      Smtp SMTP_quit (smtp_ok E (smtp_calls st))
        :: (if smtp_ok E (smtp_calls st) then [Log LogSmtpDisconnected] else [])
  | None => []
  end.

(** The events of reading templates and contacts. *)
Definition load_event (ev : event) : bool :=
  match ev with
  | OpenText _ | OpenCsv _ | SqliteQuery _ _ => true
  | Log (LogTemplateError _) | Log (LogCsvLoaded _ _) | Log (LogCsvError _)
  | Log (LogSqliteLoaded _) | Log (LogSqliteError _) => true
  | _ => false
  end.

(** ** More words on traces *)

Definition is_smtp (ev : event) : bool :=
  match ev with
  | Smtp _ _ => true
  | _ => false
  end.

(** A connection that was opened: [smtplib.SMTP(server, port)] returned. *)
Definition opened (ev : event) : bool :=
  match ev with
  | Smtp (SMTP_open _ _) true => true
  | _ => false
  end.

(** The log line of an email that was sent. *)
Definition logged_sent (ev : event) : bool :=
  match ev with
  | Log (LogEmailSent _) => true
  | _ => false
  end.

(** The summary line that ends a run of [send_bulk_emails]. *)
Definition is_summary_log (ev : event) : bool :=
  match ev with
  | Log (LogDone _ _) => true
  | _ => false
  end.

Definition is_start_log (ev : event) : bool :=
  match ev with
  | Log (LogStart _) => true
  | _ => false
  end.

(** The events the loop of [send_bulk_emails] can add, for a given
    [delay]: calls of [send_email] and what they add, pauses of [delay]
    seconds, warnings of a missing address. *)
Definition loop_event (delay : Z) (ev : event) : bool :=
  match ev with
  | SendEmailCall _ _ _ _ _ => true
  | Sleep d => (d =? delay) && (0 <? delay)
  | Log (LogNoEmail _) => true
  | _ => transport_event ev
  end.

Definition count (f : event -> bool) (evs : list event) : nat :=
  length (List.filter f evs).

(** How many connections a step opened, read off the session before and
    after it. *)
Definition newly_opened (before after : option SMTP) : nat :=
  match before, after with
  | None, Some _ => 1
  | _, _ => 0
  end.

(** The message [send_email] composes from its arguments. *)
Definition message_of (from_email : string) (to_email : value)
    (subject html : string) (message_text : option string) : Message :=
  {| msg_from := from_email;
     msg_to := to_email;
     msg_subject := subject;
     msg_text := if opt_truthy message_text then message_text else None;
     msg_html := html |}.

(** The text template [main] hands to the loop: the content of the
    file named on the command line, [None] when no file is named or when
    it cannot be read. *)
Definition loaded_text (E : Env) (args : Args) : option string :=
  match arg_text_template args with
  | Some path => if nonempty path then read_text E path else None
  | None => None
  end.

(** The contacts [main] hands to the loop. *)
Definition loaded_rows (E : Env) (args : Args) : list Contact :=
  match source_rows E args with
  | Some rows => rows
  | None => []
  end.

(** The HTML template [main] goes on with: the content of the file when
    it can be read and is not empty. *)
Definition loaded_html (E : Env) (args : Args) : option string :=
  match read_text E (arg_template args) with
  | Some content => if nonempty content then Some content else None
  | None => None
  end.

(** The events of [main] before the bulk send: loading, and the two
    error lines on which it gives up. *)
Definition prelude_event (ev : event) : bool :=
  match ev with
  | Log LogNoHtmlTemplate | Log LogNoContacts => true
  | _ => load_event ev
  end.

(** The state in which [main] starts the bulk send: a new sender, with
    no session. *)
Definition with_new_sender (st : State) : State :=
  {| smtp_session := None; smtp_calls := smtp_calls st; trace := trace st |}.

(** The text has no dollar. *)
Fixpoint dollar_free (s : string) : bool :=
  match s with
  | EmptyString => true
  | String c rest => negb (Template.is_dollar c) && dollar_free rest
  end.

(** The tally of a step that returned counts the emails logged as sent. *)
Definition counts_sent (sent : nat) (evs : list event)
    (r : result (nat * nat)) : Prop :=
  match r with
  | Ret (sent', _) => sent' = (sent + count logged_sent evs)%nat
  | Raise _ => True
  end.

(** The pauses of a run with this [delay] return: the loop never
    pauses, or [time.sleep(delay)] returns. *)
Definition pauses_return (E : Env) (delay : Z) : bool :=
  (delay <=? 0)
  || match sleep_outcome E delay with
     | None => true
     | Some _ => false
     end.

(** A list of events up to its first pause, that pause included. *)
Fixpoint until_pause (evs : list event) : list event :=
  match evs with
  | [] => []
  | ev :: rest => if is_sleep ev then [ev] else ev :: until_pause rest
  end.

(** What a run follows of the steps [steps] planned for it: all of
    them when its pauses return, those up to the first pause when they
    raise. *)
Definition followed (E : Env) (delay : Z) (steps : list event) : list event :=
  if pauses_return E delay then steps else until_pause steps.

(** The field a match of the pattern asks the contact for, and the
    fields a template asks for, in the order of the template. *)
Definition token_name (t : Template.token) : option string :=
  match t with
  | Template.Match (Template.Named id)
  | Template.Match (Template.Braced id) => Some id
  | _ => None
  end.

Fixpoint token_names (ts : list Template.token) : list string :=
  match ts with
  | [] => []
  | t :: ts' =>
      match token_name t with
      | Some id => id :: token_names ts'
      | None => token_names ts'
      end
  end.

Definition names (template : string) : list string :=
  token_names (Template.tokens template).

(** The warnings the loop logs for contacts without address, numbered
    from [i + 1]. *)
Fixpoint warnings (i : nat) (contacts : list Contact) : list event :=
  match contacts with
  | [] => []
  | _ :: rest => Log (LogNoEmail (S i)) :: warnings (S i) rest
  end.

(** ** Sample data *)

Definition sample_sender : EmailSender.t :=
  {| EmailSender.server := "smtp.example.org";
     EmailSender.port := 587;
     EmailSender.username := "user";
     EmailSender.password := "secret" |}.

Definition contact_of (email name : string) : Contact :=
  <["email" := VStr email]> (<["name" := VStr name]> ∅).

Definition ann : Contact := contact_of "ann@example.org" "Ann".
Definition bob : Contact := contact_of "bob@example.org" "Bob".

(** The contact of the scenario: an empty address. *)
Definition no_address : Contact := contact_of "" "A".

(** An environment in which every SMTP operation succeeds and no file
    can be read. *)
Definition smtp_up : Env :=
  {| smtp_ok := fun _ => true;
     sleep_ok := fun _ => true;
     read_text := fun _ => None;
     read_csv := fun _ => None;
     run_query := fun _ _ => None |}.

(** Command lines, and environments for them. *)
Definition sample_args : Args :=
  {| arg_source := csv;
     arg_source_file := "contacts.csv";
     arg_template := "mail.html";
     arg_text_template := None;
     arg_subject := "Hello $name";
     arg_from_email := "me@example.org";
     arg_smtp_server := "smtp.example.org";
     arg_smtp_port := 587;
     arg_smtp_user := "user";
     arg_smtp_password := "secret";
     arg_delay := 5;
     arg_max_emails := None;
     arg_test := false;
     arg_query := None |}.

(** The template can be read, the contact file cannot. *)
Definition no_contact_file : Env :=
  {| smtp_ok := fun _ => true;
     sleep_ok := fun _ => true;
     read_text := fun _ => Some "<p>Hello $name</p>";
     read_csv := fun _ => None;
     run_query := fun _ _ => None |}.

(** The template file is empty. *)
Definition empty_template : Env :=
  {| smtp_ok := fun _ => true;
     sleep_ok := fun _ => true;
     read_text := fun _ => Some "";
     read_csv := fun _ => Some [ann; bob];
     run_query := fun _ _ => None |}.

(** Template and contacts load; the third SMTP operation (STARTTLS) and
    every later one raise. *)
Definition starttls_refused : Env :=
  {| smtp_ok := fun n => (n <? 2)%nat;
     sleep_ok := fun _ => true;
     read_text := fun _ => Some "<p>Hello $name</p>";
     read_csv := fun _ => Some [ann; bob];
     run_query := fun _ _ => None |}.

(** A command line that names a text template, and an environment in
    which only the HTML template can be read. *)
Definition text_args : Args :=
  {| arg_source := csv;
     arg_source_file := "contacts.csv";
     arg_template := "mail.html";
     arg_text_template := Some "mail.txt";
     arg_subject := "Hello $name";
     arg_from_email := "me@example.org";
     arg_smtp_server := "smtp.example.org";
     arg_smtp_port := 587;
     arg_smtp_user := "user";
     arg_smtp_password := "secret";
     arg_delay := 0;
     arg_max_emails := None;
     arg_test := false;
     arg_query := None |}.

Definition no_text_file : Env :=
  {| smtp_ok := fun _ => true;
     sleep_ok := fun _ => true;
     read_text := fun path =>
       if String.eqb path "mail.html"
       then Some "<p>Hello $name</p>"
       else None;
     read_csv := fun _ => Some [ann; no_address; bob];
     run_query := fun _ _ => None |}.

(** Contacts without address only. *)
Definition no_addresses : Env :=
  {| smtp_ok := fun _ => false;
     sleep_ok := fun _ => true;
     read_text := fun _ => Some "<p>Hello $name</p>";
     read_csv := fun _ => Some [no_address; no_address];
     run_query := fun _ _ => None |}.

(** An environment in which the system call of [time.sleep] refuses
    every delay. *)
Definition clock_refuses : Env :=
  {| smtp_ok := fun _ => true;
     sleep_ok := fun _ => false;
     read_text := fun _ => Some "<p>Hello $name</p>";
     read_csv := fun _ => Some [ann; bob];
     run_query := fun _ _ => None |}.



(** ** Properties of the transport *)

Ltac run_prims :=
  unfold EmailSender.send_email, EmailSender.connect,
    EmailSender.compose_and_send, EmailSender.disconnect, bind, try_except,
    sleep, log, emit, record, get_session, set_session, smtp, ret, raise;
  cbn [smtp_session smtp_calls trace fst snd].

Ltac case_smtp E :=
  repeat match goal with
         | |- context [smtp_ok E ?n] =>
             let H := fresh "Hok" in
             destruct (smtp_ok E n) eqn:H;
             cbn [smtp_session smtp_calls trace fst snd]
         end.

Lemma send_email_returns (self : EmailSender.t) (from_email : string)
    (to_email : value) (subject : string)
    (message_html message_text : option string) (E : Env) (st : State) :
  exists (b : bool) (st' : State) (evs : list event),
    EmailSender.send_email self from_email to_email subject
      message_html message_text E st = (Ret b, st')
    /\ trace st' =
         trace st
           ++ SendEmailCall from_email to_email subject message_html message_text
           :: evs
    /\ forallb transport_event evs = true
    /\ (existsb smtp_failed evs = true -> b = false).
Proof.
  run_prims.
  destruct (smtp_session st) as [session|]; cbn [smtp_session smtp_calls trace];
    destruct message_html as [html|];
    case_smtp E;
    eexists _, _, _;
    (split; [reflexivity|]);
    cbn [trace]; rewrite <- ?app_assoc; cbn [app];
    (split; [reflexivity|]);
    (split; [reflexivity|]);
    cbn; congruence.
Qed.

(** ** Properties of the send loop *)

Section BulkSendFacts.

Variable email_sender : EmailSender.t.
Variable from_email : string.
Variables subject_template html_template : string.
Variable text_template : option string.
Variable delay : Z.
Variable max_emails : option Z.
Variable total_emails : Z.

Local Abbreviation this_iteration :=
  (iteration email_sender from_email subject_template html_template
     text_template delay total_emails).
Local Abbreviation this_loop :=
  (send_loop email_sender from_email subject_template html_template
     text_template delay max_emails total_emails).
Local Abbreviation this_plan_contact :=
  (plan_contact from_email subject_template html_template text_template
     delay total_emails).
Local Abbreviation this_plan :=
  (plan from_email subject_template html_template text_template delay
     max_emails total_emails).
Local Abbreviation this_step :=
  (expected_step from_email subject_template html_template text_template).

Lemma outline_transport (evs : list event) :
  forallb transport_event evs = true -> outline evs = [].
Proof.
  induction evs as [|ev evs IH]; [reflexivity|].
  cbn [forallb]. intros [Hev Hevs]%andb_prop.
  unfold outline in *. cbn [List.filter].
  destruct ev as [[]| | | | | |]; cbn in Hev |- *; try discriminate; auto.
Qed.

Lemma outline_cons (ev : event) (evs : list event) :
  outline (ev :: evs) =
    if contact_step ev || is_sleep ev then ev :: outline evs else outline evs.
Proof. reflexivity. Qed.

Lemma outline_app (l1 l2 : list event) :
  outline (l1 ++ l2) = outline l1 ++ outline l2.
Proof. unfold outline. apply List.filter_app. Qed.

Lemma handled_app (l1 l2 : list event) :
  handled (l1 ++ l2) = handled l1 ++ handled l2.
Proof. unfold handled. apply List.filter_app. Qed.

Lemma attempts_app (l1 l2 : list event) :
  attempts (l1 ++ l2) = attempts l1 ++ attempts l2.
Proof. unfold attempts. apply List.filter_app. Qed.

Lemma attempts_outline (evs : list event) : attempts (outline evs) = attempts evs.
Proof.
  unfold attempts, outline.
  induction evs as [|ev evs IH]; [reflexivity|].
  cbn [List.filter].
  destruct ev as [[]| | | | | |]; cbn; rewrite ?IH; reflexivity.
Qed.

Lemma attempts_plan_contact (i : nat) (contact : Contact) :
  attempts (this_plan_contact i contact) =
    if truthy (dict_get contact "email")
    then [this_step i contact]
    else [].
Proof.
  unfold plan_contact, expected_step, pause_after.
  destruct (truthy (dict_get contact "email")); [|reflexivity].
  now destruct (_ && _).
Qed.

Lemma handled_outline (evs : list event) : handled (outline evs) = handled evs.
Proof.
  unfold handled, outline.
  induction evs as [|ev evs IH]; [reflexivity|].
  cbn [List.filter].
  destruct (contact_step ev) eqn:Hc; cbn [orb List.filter].
  - rewrite Hc. now f_equal.
  - destruct (is_sleep ev); cbn [List.filter]; [rewrite Hc|]; exact IH.
Qed.

(** Personalisation returns the substituted text and leaves the state
    as it is: its [except] branch is never taken. *)
Lemma personalize_message_run (template : string) (contact : Contact)
    (E : Env) (st : State) :
  TemplateManager.personalize_message template contact E st
  = (Ret (Some (Template.safe_substitute template contact)), st).
Proof. reflexivity. Qed.

(** The body of the loop, once the three texts are personalised. *)
Lemma iteration_unfold (i : nat) (contact : Contact) (sent failed : nat)
    (E : Env) (st : State) :
  this_iteration i contact sent failed E st =
    (if negb (truthy (dict_get contact "email")) then
       log (LogNoEmail (S i));;
       ret (sent, S failed)
     else
       success <- EmailSender.send_email email_sender from_email
                    (dict_get contact "email")
                    (Template.safe_substitute subject_template contact)
                    (Some (Template.safe_substitute html_template contact))
                    (match text_template with
                     | Some t =>
                         if nonempty t
                         then Some (Template.safe_substitute t contact)
                         else None
                     | None => None
                     end);;
       (if (Z.of_nat i <? total_emails - 1) && (delay >? 0)
        then sleep delay
        else ret tt);;
       ret (if success : bool
            then (S sent, failed)
            else (sent, S failed))) E st.
Proof.
  unfold iteration.
  destruct text_template as [t|]; [destruct (nonempty t)|]; reflexivity.
Qed.

Lemma contact_step_expected (i : nat) (contact : Contact) :
  contact_step (this_step i contact) = true.
Proof.
  unfold expected_step.
  now destruct (truthy (dict_get contact "email")).
Qed.

Lemma is_sleep_expected (i : nat) (contact : Contact) :
  is_sleep (this_step i contact) = false.
Proof.
  unfold expected_step.
  now destruct (truthy (dict_get contact "email")).
Qed.

Lemma outline_pause_after (i : nat) :
  outline (pause_after delay total_emails i) = pause_after delay total_emails i.
Proof. unfold pause_after. now destruct (_ && _). Qed.

(** ** Pauses that raise *)

Lemma until_pause_quiet (l1 l2 : list event) :
  existsb is_sleep l1 = false ->
  until_pause (l1 ++ l2) = l1 ++ until_pause l2.
Proof.
  induction l1 as [|ev l1 IH]; [reflexivity|].
  cbn [existsb app until_pause]. intros [Hev Hl1]%orb_false_elim.
  now rewrite Hev, (IH Hl1).
Qed.

Lemma until_pause_split (l : list event) :
  exists rest : list event, l = until_pause l ++ rest.
Proof.
  induction l as [|ev l [rest IH]]; [now exists []|].
  cbn [until_pause]. destruct (is_sleep ev).
  - now exists l.
  - exists rest. cbn [app]. now rewrite <- IH.
Qed.

Lemma followed_split (E : Env) (l : list event) :
  exists rest : list event, l = followed E delay l ++ rest.
Proof.
  unfold followed. destruct (pauses_return E delay).
  - exists []. now rewrite app_nil_r.
  - apply until_pause_split.
Qed.

Lemma followed_nil (E : Env) : followed E delay [] = [].
Proof. unfold followed. now destruct (pauses_return E delay). Qed.

Lemma followed_app (E : Env) (l1 l2 : list event) :
  pauses_return E delay = true \/ existsb is_sleep l1 = false ->
  followed E delay (l1 ++ l2) = l1 ++ followed E delay l2.
Proof.
  unfold followed. intros [Hp|Hquiet].
  - now rewrite Hp.
  - destruct (pauses_return E delay); [reflexivity|].
    now apply until_pause_quiet.
Qed.

Lemma followed_stop (E : Env) (step : event) (l : list event) :
  pauses_return E delay = false -> is_sleep step = false ->
  followed E delay ([step; Sleep delay] ++ l) = [step; Sleep delay].
Proof.
  unfold followed. intros -> Hstep. cbn [app until_pause is_sleep].
  now rewrite Hstep.
Qed.

(** A run whose pauses return follows all of its steps. *)
Lemma followed_all (E : Env) (l : list event) :
  pauses_return E delay = true -> followed E delay l = l.
Proof. unfold followed. now intros ->. Qed.

(** The pause after the send at index [i]: it returns, or raises what
    [time.sleep] raises. *)
Lemma pause_spec (i : nat) (E : Env) (st : State) :
  exists (r : result unit) (st' : State),
    (if (Z.of_nat i <? total_emails - 1) && (delay >? 0)
     then sleep delay
     else ret tt) E st = (r, st')
    /\ trace st' = trace st ++ pause_after delay total_emails i
    /\ smtp_session st' = smtp_session st
    /\ smtp_calls st' = smtp_calls st
    /\ match r with
       | Ret _ =>
           pauses_return E delay = true
           \/ pause_after delay total_emails i = []
       | Raise e =>
           sleep_outcome E delay = Some e
           /\ pauses_return E delay = false
           /\ pause_after delay total_emails i = [Sleep delay]
       end.
Proof.
  unfold pause_after, pauses_return.
  destruct (Z.of_nat i <? total_emails - 1); cbn [andb];
    [|exists (Ret tt), st; rewrite app_nil_r; repeat split; auto].
  destruct (delay >? 0) eqn:Hdelay;
    [|exists (Ret tt), st; rewrite app_nil_r; repeat split; auto].
  assert ((delay <=? 0) = false) as -> by lia. cbn [orb].
  unfold sleep, bind, emit. cbn [record].
  destruct (sleep_outcome E delay) as [e|].
  - eexists (Raise e), _. split; [reflexivity|]. cbn. repeat split.
  - eexists (Ret tt), _. split; [reflexivity|]. cbn. repeat split. now left.
Qed.

(** One iteration adds the expected step to the trace, and the pause
    that follows it.  When it returns it has incremented exactly one
    counter; it raises only what its pause raises. *)
Lemma iteration_spec (i : nat) (contact : Contact) (sent failed : nat)
    (E : Env) (st : State) :
  exists (r : result (nat * nat)) (st' : State) (evs : list event),
    this_iteration i contact sent failed E st = (r, st')
    /\ trace st' = trace st ++ evs
    /\ outline evs = this_plan_contact i contact
    /\ match r with
       | Ret (sent', failed') =>
           ((sent' = S sent /\ failed' = failed
             /\ truthy (dict_get contact "email") = true)
            \/ (sent' = sent /\ failed' = S failed))
           /\ (pauses_return E delay = true
               \/ existsb is_sleep (this_plan_contact i contact) = false)
       | Raise e =>
           sleep_outcome E delay = Some e
           /\ pauses_return E delay = false
           /\ last evs = Some (Sleep delay)
           /\ this_plan_contact i contact = [this_step i contact; Sleep delay]
       end.
Proof.
  rewrite iteration_unfold.
  pose proof (is_sleep_expected i contact) as Hstep.
  unfold plan_contact, expected_step in *.
  destruct (truthy (dict_get contact "email")) eqn:Hrecipient; cbn [negb].
  - match goal with
    | |- context [EmailSender.send_email ?a ?b ?c ?d ?e ?f] =>
        destruct (send_email_returns a b c d e f E st)
          as (b' & st1 & evs1 & Hrun & Htr & Htrans & _)
    end.
    unfold bind at 1. rewrite Hrun. cbv beta iota.
    destruct (pause_spec i E st1) as (r & st2 & Hpause & Htr2 & _ & _ & Hr).
    unfold bind at 1. rewrite Hpause. cbv beta iota.
    assert (Hout : forall (call : event) (l : list event),
               contact_step call = true ->
               outline (call :: evs1 ++ l) = call :: outline l).
    { intros call l Hcall. rewrite outline_cons, Hcall. cbn [orb].
      now rewrite outline_app, (outline_transport _ Htrans). }
    destruct r as [[]|e].
    + eexists (Ret _), st2, _. unfold ret.
      split; [reflexivity|].
      split; [rewrite Htr2, Htr, <- app_assoc; cbn [app]; reflexivity|].
      split; [now rewrite Hout, outline_pause_after by reflexivity|].
      assert (Hquiet : pauses_return E delay = true
                       \/ existsb is_sleep
                            (this_step i contact
                               :: pause_after delay total_emails i) = false).
      { destruct Hr as [Hp|Hnone]; [now left|right].
        rewrite Hnone. cbn [existsb]. now rewrite is_sleep_expected. }
      unfold expected_step in Hquiet. rewrite Hrecipient in Hquiet.
      destruct b'; (split; [auto|exact Hquiet]).
    + destruct Hr as (Hsleep & Hp & Hpause_after).
      eexists (Raise e), st2, _.
      split; [reflexivity|].
      split; [rewrite Htr2, Htr, <- app_assoc; cbn [app]; reflexivity|].
      split; [now rewrite Hout, outline_pause_after by reflexivity|].
      split; [exact Hsleep|]. split; [exact Hp|].
      rewrite Hpause_after. split; [|reflexivity].
      rewrite app_comm_cons, last_snoc. reflexivity.
  - run_prims. eexists (Ret _), _, _.
    split; [reflexivity|]. cbn [trace].
    split; [reflexivity|]. split; [reflexivity|]. auto.
Qed.

Lemma iterations_stop (i n : nat) :
  cap_reached max_emails i = true -> iterations max_emails i n = 0%nat.
Proof.
  unfold cap_reached, iterations. destruct max_emails as [m|]; [|discriminate].
  intros H. lia.
Qed.

Lemma iterations_step (i n : nat) :
  cap_reached max_emails i = false ->
  iterations max_emails i (S n) = S (iterations max_emails (S i) n).
Proof.
  unfold cap_reached, iterations. destruct max_emails as [m|]; [|reflexivity].
  intros H. lia.
Qed.

(** The loop follows its plan: all of it when it returns, and then
    every contact handled adds one to the sum of the counters; up to the
    first pause when that pause raises, which ends the loop. *)
Lemma send_loop_spec (contacts : list Contact) :
  forall (i sent failed : nat) (E : Env) (st : State),
  exists (r : result (nat * nat)) (st' : State) (evs : list event),
    this_loop i contacts sent failed E st = (r, st')
    /\ trace st' = trace st ++ evs
    /\ outline evs = followed E delay (this_plan i contacts)
    /\ match r with
       | Ret (sent', failed') =>
           outline evs = this_plan i contacts
           /\ (sent' + failed' =
               sent + failed + iterations max_emails i (length contacts))%nat
           /\ (sent' <= sent + length (attempts (this_plan i contacts)))%nat
           /\ (pauses_return E delay = true
               \/ existsb is_sleep (this_plan i contacts) = false)
       | Raise e =>
           sleep_outcome E delay = Some e
           /\ pauses_return E delay = false
           /\ last evs = Some (Sleep delay)
           /\ existsb is_sleep (this_plan i contacts) = true
       end.
Proof.
  induction contacts as [|contact rest IH]; intros i sent failed E st.
  - exists (Ret (sent, failed)), st, []. cbn [send_loop plan length].
    rewrite app_nil_r, followed_nil.
    repeat split; [|cbn; lia|now right].
    unfold iterations. destruct max_emails; lia.
  - cbn [send_loop plan length].
    destruct (cap_reached max_emails i) eqn:Hcap.
    + exists (Ret (sent, failed)), st, [].
      rewrite app_nil_r, followed_nil, iterations_stop by exact Hcap.
      repeat split; [cbn; lia..|now right].
    + destruct (iteration_spec i contact sent failed E st)
        as (r1 & st1 & evs1 & Hrun1 & Htr1 & Hout1 & Hr1).
      unfold bind. rewrite Hrun1.
      destruct r1 as [[s1 f1]|e].
      * destruct Hr1 as [Hcount Hquiet]. cbn [fst snd].
        destruct (IH (S i) s1 f1 E st1)
          as (r2 & st2 & evs2 & Hrun2 & Htr2 & Hout2 & Hr2).
        exists r2, st2, (evs1 ++ evs2). rewrite Hrun2.
        split; [reflexivity|].
        split; [now rewrite Htr2, Htr1, app_assoc|].
        split; [now rewrite outline_app, Hout1, Hout2, followed_app|].
        destruct r2 as [[s2 f2]|e2].
        -- destruct Hr2 as (Hout2' & Hsum & Hsent & Hquiet2).
           split; [now rewrite outline_app, Hout1, Hout2'|].
           rewrite iterations_step by exact Hcap.
           rewrite attempts_app, attempts_plan_contact, length_app.
           split; [lia|]. split.
           ++ destruct Hcount as [(-> & -> & ->)|(-> & ->)]; cbn [length]; lia.
           ++ destruct Hquiet as [Hp|Hq1]; [now left|].
              destruct Hquiet2 as [Hp|Hq2]; [now left|right].
              now rewrite existsb_app, Hq1, Hq2.
        -- destruct Hr2 as (Hsleep & Hp & Hlast & Hpause).
           split; [exact Hsleep|]. split; [exact Hp|].
           split; [now rewrite last_app, Hlast|].
           rewrite existsb_app, Hpause. apply orb_true_r.
      * destruct Hr1 as (Hsleep & Hp & Hlast & Hplan).
        exists (Raise e), st1, evs1.
        split; [reflexivity|]. split; [exact Htr1|].
        split.
        { rewrite Hout1, Hplan.
          now rewrite followed_stop by (auto using is_sleep_expected). }
        split; [exact Hsleep|]. split; [exact Hp|]. split; [exact Hlast|].
        rewrite Hplan. cbn [app existsb is_sleep]. now rewrite orb_true_r.
Qed.
Lemma handled_pause_after (i : nat) :
  handled (pause_after delay total_emails i) = [].
Proof. unfold pause_after. now destruct (_ && _). Qed.

Lemma handled_plan_contact (i : nat) (contact : Contact) :
  handled (this_plan_contact i contact) = [this_step i contact].
Proof.
  unfold plan_contact, handled. cbn [List.filter].
  rewrite contact_step_expected. f_equal.
  destruct (truthy (dict_get contact "email")); [|reflexivity].
  apply handled_pause_after.
Qed.

(** The contacts handled are the first [iterations] ones, in order. *)
Lemma handled_plan (contacts : list Contact) :
  forall i : nat,
    handled (this_plan i contacts) =
      imap (fun j => this_step (i + j))
        (take (iterations max_emails i (length contacts)) contacts).
Proof.
  induction contacts as [|contact rest IH]; intros i.
  - cbn [plan]. now rewrite take_nil.
  - cbn [plan length].
    destruct (cap_reached max_emails i) eqn:Hcap.
    + now rewrite iterations_stop by exact Hcap.
    + rewrite iterations_step by exact Hcap.
      rewrite handled_app, handled_plan_contact, IH.
      cbn [take imap app]. rewrite Nat.add_0_r. f_equal.
      apply imap_ext. intros j c _. cbn. f_equal. lia.
Qed.

Lemma handled_plan_length (contacts : list Contact) (i : nat) :
  length (handled (this_plan i contacts)) =
    iterations max_emails i (length contacts).
Proof.
  rewrite handled_plan, length_imap, length_take.
  unfold iterations. destruct max_emails; lia.
Qed.


End BulkSendFacts.



(** The contacts a run handles are the first of those planned. *)
Lemma handled_followed (E : Env) (delay : Z) (steps : list event) :
  handled (followed E delay steps) `prefix_of` handled steps.
Proof.
  destruct (followed_split delay E steps) as [rest Hsplit].
  exists (handled rest). rewrite Hsplit at 1. apply handled_app.
Qed.

Lemma attempts_followed (E : Env) (delay : Z) (steps : list event) :
  (length (attempts (followed E delay steps)) <= length (attempts steps))%nat.
Proof.
  destruct (followed_split delay E steps) as [rest Hsplit].
  rewrite Hsplit at 2. rewrite attempts_app, length_app. lia.
Qed.

(** ** Properties of [send_bulk_emails] *)

Lemma send_bulk_emails_spec (email_sender : EmailSender.t) (from_email : string)
    (contacts : list Contact) (subject_template html_template : string)
    (text_template : option string) (delay : Z) (test_mode : bool)
    (max_emails : option Z) (E : Env) (st : State) :
  exists (r : result (nat * nat)) (st' : State) (body : list event),
    send_bulk_emails email_sender from_email contacts subject_template
      html_template text_template delay test_mode max_emails E st
      = (r, st')
    /\ trace st' =
         trace st
           ++ opening_logs test_mode max_emails (length contacts)
           ++ body ++ summary_line r
    /\ outline body =
         followed E delay
           (plan from_email subject_template html_template text_template
              delay (effective_max test_mode max_emails)
              (effective_total (length contacts)
                 (effective_max test_mode max_emails))
              0 contacts)
    /\ match r with
       | Ret (sent, failed) =>
           outline body =
             plan from_email subject_template html_template text_template
               delay (effective_max test_mode max_emails)
               (effective_total (length contacts)
                  (effective_max test_mode max_emails))
               0 contacts
           /\ (sent + failed =
               iterations (effective_max test_mode max_emails) 0
                 (length contacts))%nat
           /\ (sent <= length (attempts body))%nat
           /\ (pauses_return E delay = true
               \/ existsb is_sleep
                    (plan from_email subject_template html_template
                       text_template delay (effective_max test_mode max_emails)
                       (effective_total (length contacts)
                          (effective_max test_mode max_emails))
                       0 contacts) = false)
       | Raise e =>
           sleep_outcome E delay = Some e
           /\ pauses_return E delay = false
           /\ last body = Some (Sleep delay)
           /\ existsb is_sleep
                (plan from_email subject_template html_template
                   text_template delay (effective_max test_mode max_emails)
                   (effective_total (length contacts)
                      (effective_max test_mode max_emails))
                   0 contacts) = true
       end.
Proof.
  unfold send_bulk_emails, opening_logs, effective_max, effective_total.
  set (limited := test_limit_applies test_mode max_emails).
  set (cap := if limited then Some 3 else max_emails).
  set (total := match cap with
                | Some m => Z.min (Z.of_nat (length contacts)) m
                | None => Z.of_nat (length contacts)
                end).
  set (st0 := snd ((if limited then log LogTestMode else ret tt) E st)).
  set (st1 := snd (log (LogStart total) E st0)).
  destruct (send_loop_spec email_sender from_email subject_template
              html_template text_template delay cap total contacts 0 0 0 E st1)
    as (r & st2 & body & Hrun & Htr & Hout & Hr).
  assert (Hst1 : trace st1 =
                   trace st ++ (if limited then [Log LogTestMode] else [])
                     ++ [Log (LogStart total)]).
  { subst st1 st0. destruct limited; run_prims; rewrite <- ?app_assoc;
      try rewrite app_nil_r; reflexivity. }
  assert (Hsteps : forall k : nat * nat -> M (nat * nat),
             ((if limited then log LogTestMode else ret tt);;
              log (LogStart total);;
              counts <- send_loop email_sender from_email subject_template
                          html_template text_template delay cap total 0
                          contacts 0 0;;
              k counts) E st
             = match r with
               | Ret counts => k counts E st2
               | Raise e => (Raise e, st2)
               end).
  { intros k. unfold bind at 1.
    replace ((if limited then log LogTestMode else ret tt) E st)
      with (Ret tt, st0) by (subst st0; now destruct limited).
    unfold bind at 1. change (log (LogStart total) E st0) with (Ret tt, st1).
    unfold bind at 1. rewrite Hrun. now destruct r. }
  rewrite Hsteps.
  destruct r as [[sent failed]|e].
  - destruct Hr as (Hplan & Hsum & Hsent & Hquiet).
    exists (Ret (sent, failed)), (snd (log (LogDone sent failed) E st2)), body.
    split; [reflexivity|].
    split; [run_prims; now rewrite Htr, Hst1, <- !app_assoc|].
    split; [exact Hout|]. split; [exact Hplan|]. split; [lia|].
    split; [|exact Hquiet].
    rewrite <- attempts_outline, Hplan. lia.
  - exists (Raise e), st2, body.
    split; [reflexivity|].
    split; [cbn [summary_line]; now rewrite Htr, Hst1, app_nil_r, <- !app_assoc|].
    split; [exact Hout|exact Hr].
Qed.

Lemma outline_opening_logs (test_mode : bool) (max_emails : option Z) (n : nat) :
  outline (opening_logs test_mode max_emails n) = [].
Proof. unfold opening_logs. now destruct (test_limit_applies _ _). Qed.

Lemma outline_summary_line (r : result (nat * nat)) :
  outline (summary_line r) = [].
Proof. now destruct r as [[]|]. Qed.

(** The outline of a whole run of [send_bulk_emails]. *)
Lemma outline_run (test_mode : bool) (max_emails : option Z) (n : nat)
    (body : list event) (r : result (nat * nat)) :
  outline (opening_logs test_mode max_emails n ++ body ++ summary_line r)
  = outline body.
Proof.
  rewrite !outline_app, outline_opening_logs, outline_summary_line.
  cbn. apply app_nil_r.
Qed.

Lemma iterations_cap_bound (n : nat) (test_mode : bool) (max_emails : option Z) :
  Z.of_nat (iterations (effective_max test_mode max_emails) 0 n) =
    Z.max 0 (cap_bound n test_mode max_emails).
Proof.
  unfold iterations, effective_max, test_limit_applies, cap_bound.
  destruct test_mode, max_emails as [m|]; cbn [andb];
    try destruct (m >? 3) eqn:Hm; lia.
Qed.


(** Every run of [send_bulk_emails] follows its plan.  When it returns
    its tally, the steps of its trace are those of the plan; it raises
    only what a pause raises, and that pause is then its last event. *)
Lemma send_bulk_emails_run (email_sender : EmailSender.t) (from_email : string)
    (contacts : list Contact) (subject_template html_template : string)
    (text_template : option string) (delay : Z) (test_mode : bool)
    (max_emails : option Z) (E : Env) (st : State) :
  exists (r : result (nat * nat)) (st' : State) (evs : list event),
    send_bulk_emails email_sender from_email contacts subject_template
      html_template text_template delay test_mode max_emails E st
      = (r, st')
    /\ trace st' = trace st ++ evs
    /\ (exists body : list event,
          evs = opening_logs test_mode max_emails (length contacts)
                  ++ body ++ summary_line r)
    /\ outline evs =
         followed E delay
           (plan from_email subject_template html_template text_template
              delay (effective_max test_mode max_emails)
              (effective_total (length contacts)
                 (effective_max test_mode max_emails))
              0 contacts)
    /\ match r with
       | Ret (sent, failed) =>
           outline evs =
             plan from_email subject_template html_template text_template
               delay (effective_max test_mode max_emails)
               (effective_total (length contacts)
                  (effective_max test_mode max_emails))
               0 contacts
           /\ (sent + failed = length (handled evs))%nat
           /\ (sent <= length (attempts evs))%nat
           /\ (pauses_return E delay = true
               \/ existsb is_sleep
                    (plan from_email subject_template html_template
                       text_template delay (effective_max test_mode max_emails)
                       (effective_total (length contacts)
                          (effective_max test_mode max_emails))
                       0 contacts) = false)
       | Raise e =>
           sleep_outcome E delay = Some e
           /\ pauses_return E delay = false
           /\ last evs = Some (Sleep delay)
           /\ existsb is_sleep
                (plan from_email subject_template html_template
                   text_template delay (effective_max test_mode max_emails)
                   (effective_total (length contacts)
                      (effective_max test_mode max_emails))
                   0 contacts) = true
       end.
Proof.
  destruct (send_bulk_emails_spec email_sender from_email contacts
              subject_template html_template text_template delay test_mode
              max_emails E st)
    as (r & st' & body & Hrun & Htr & Hout & Hr).
  exists r, st', (opening_logs test_mode max_emails (length contacts)
                    ++ body ++ summary_line r).
  rewrite outline_run.
  split; [exact Hrun|]. split; [exact Htr|]. split; [now exists body|].
  split; [exact Hout|].
  destruct r as [[sent failed]|e].
  - destruct Hr as (Hplan & Hsum & Hsent & Hquiet). split; [exact Hplan|].
    split; [|split; [|exact Hquiet]].
    + now rewrite <- handled_outline, outline_run, Hplan, handled_plan_length.
    + now rewrite <- attempts_outline, outline_run, attempts_outline.
  - destruct Hr as (Hsleep & Hp & Hlast & Hpause).
    split; [exact Hsleep|]. split; [exact Hp|]. split; [|exact Hpause].
    cbn [summary_line]. rewrite app_nil_r, last_app, Hlast. reflexivity.
Qed.


Lemma pauses_return_false (E : Env) (delay : Z) :
  pauses_return E delay = false ->
  0 < delay /\ exists e : exn, sleep_outcome E delay = Some e.
Proof.
  unfold pauses_return. intros [Hdelay Hout]%orb_false_elim.
  split; [lia|]. destruct (sleep_outcome E delay) as [e|]; [|discriminate].
  now exists e.
Qed.

(** What every run of [send_bulk_emails] does.  The contacts it handles
    are the first of those the cap lets through, in order; all of them
    when it returns its tally, which it does whenever its pauses return.
    It raises only what a pause raises, and that pause is then its last
    event. *)
Lemma send_bulk_emails_outcome (email_sender : EmailSender.t)
    (from_email : string) (contacts : list Contact)
    (subject_template html_template : string) (text_template : option string)
    (delay : Z) (test_mode : bool) (max_emails : option Z) (E : Env)
    (st : State) :
  exists (r : result (nat * nat)) (st' : State) (evs : list event),
    send_bulk_emails email_sender from_email contacts subject_template
      html_template text_template delay test_mode max_emails E st
      = (r, st')
    /\ trace st' = trace st ++ evs
    /\ (exists body : list event,
          evs = opening_logs test_mode max_emails (length contacts)
                  ++ body ++ summary_line r)
    /\ outline evs =
         followed E delay
           (plan from_email subject_template html_template text_template
              delay (effective_max test_mode max_emails)
              (effective_total (length contacts)
                 (effective_max test_mode max_emails))
              0 contacts)
    /\ handled evs `prefix_of`
         imap (expected_step from_email subject_template html_template
                 text_template)
           (take (iterations (effective_max test_mode max_emails) 0
                    (length contacts)) contacts)
    /\ Z.of_nat (length (handled evs))
       <= Z.max 0 (cap_bound (length contacts) test_mode max_emails)
    /\ match r with
       | Ret (sent, failed) =>
           outline evs =
             plan from_email subject_template html_template text_template
               delay (effective_max test_mode max_emails)
               (effective_total (length contacts)
                  (effective_max test_mode max_emails))
               0 contacts
           /\ handled evs =
                imap (expected_step from_email subject_template html_template
                        text_template)
                  (take (iterations (effective_max test_mode max_emails) 0
                           (length contacts)) contacts)
           /\ Z.of_nat (length (handled evs))
              = Z.max 0 (cap_bound (length contacts) test_mode max_emails)
           /\ (sent + failed = length (handled evs))%nat
           /\ (sent <= length (attempts evs))%nat
       | Raise e =>
           sleep_outcome E delay = Some e
           /\ pauses_return E delay = false
           /\ 0 < delay
           /\ last evs = Some (Sleep delay)
       end
    /\ (pauses_return E delay = true ->
        exists sent failed : nat, r = Ret (sent, failed))
    /\ match r with
       | Ret _ =>
           pauses_return E delay = true
           \/ existsb is_sleep
                (plan from_email subject_template html_template
                   text_template delay (effective_max test_mode max_emails)
                   (effective_total (length contacts)
                      (effective_max test_mode max_emails))
                   0 contacts) = false
       | Raise _ =>
           existsb is_sleep
             (plan from_email subject_template html_template
                text_template delay (effective_max test_mode max_emails)
                (effective_total (length contacts)
                   (effective_max test_mode max_emails))
                0 contacts) = true
       end.
Proof.
  destruct (send_bulk_emails_run email_sender from_email contacts
              subject_template html_template text_template delay test_mode
              max_emails E st)
    as (r & st' & evs & Hrun & Htr & Hbody & Hout & Hr).
  exists r, st', evs.
  assert (Hprefix :
            handled evs `prefix_of`
              imap (expected_step from_email subject_template html_template
                      text_template)
                (take (iterations (effective_max test_mode max_emails) 0
                         (length contacts)) contacts)).
  { rewrite <- handled_outline, Hout.
    match goal with
    | |- handled (followed E delay ?steps) `prefix_of` _ =>
        pose proof (handled_followed E delay steps) as Hprefix
    end.
    rewrite handled_plan in Hprefix. exact Hprefix. }
  assert (Hlength :
            length (imap (expected_step from_email subject_template
                            html_template text_template)
                      (take (iterations (effective_max test_mode max_emails) 0
                               (length contacts)) contacts))
            = iterations (effective_max test_mode max_emails) 0
                (length contacts)).
  { rewrite length_imap, length_take.
    unfold iterations. destruct (effective_max test_mode max_emails); lia. }
  split; [exact Hrun|]. split; [exact Htr|]. split; [exact Hbody|].
  split; [exact Hout|]. split; [exact Hprefix|].
  split.
  { apply prefix_length in Hprefix. rewrite Hlength in Hprefix.
    rewrite <- iterations_cap_bound. lia. }
  split; [|split].
  - destruct r as [[sent failed]|e].
    + destruct Hr as (Hplan & Hsum & Hsent & _).
      assert (Hhandled :
                handled evs =
                  imap (expected_step from_email subject_template
                          html_template text_template)
                    (take (iterations (effective_max test_mode max_emails) 0
                             (length contacts)) contacts)).
      { rewrite <- handled_outline, Hplan.
        exact (handled_plan from_email subject_template html_template
                 text_template delay _ _ contacts 0). }
      split; [exact Hplan|]. split; [exact Hhandled|].
      split; [|auto].
      rewrite Hhandled, Hlength. apply iterations_cap_bound.
    + destruct Hr as (Hsleep & Hp & Hlast & _).
      destruct (pauses_return_false E delay Hp) as [Hdelay _]. auto.
  - intros Hp. destruct r as [[sent failed]|e]; [now exists sent, failed|].
    destruct Hr as (_ & Hp' & _). congruence.
  - destruct r as [[sent failed]|e]; tauto.
Qed.

Lemma one_pause_until_pause (evs : list event) :
  existsb is_sleep evs = true ->
  length (List.filter is_sleep (until_pause evs)) = 1%nat.
Proof.
  induction evs as [|ev evs IH]; [discriminate|].
  cbn [existsb until_pause].
  destruct (is_sleep ev) eqn:Hsleep; cbn [orb List.filter].
  - intros _. now rewrite Hsleep.
  - intros Hevs. rewrite Hsleep. exact (IH Hevs).
Qed.







(** C3, as stated, fails for a negative [max_emails]: with
    [max_emails = -2], the test mode off and two contacts the run
    handles no contact, and 0 is not at most [min 2 (-2)]. *)
Lemma tally_negative_max_counterexample :
  let run :=
    send_bulk_emails sample_sender "me@example.org" [ann; bob] "Hello $name"
      "<p>Hello $name</p>" None 5 false (Some (-2)) smtp_up initial_state in
  fst run = Ret (0%nat, 0%nat)
  /\ cap_bound 2 false (Some (-2)) = -2
  /\ cap_bound 2 false (Some (-2))
       < Z.of_nat (length (handled (trace (snd run)))).
Proof. vm_compute. repeat split; reflexivity. Qed.

(** C3, amended. In every run of [send_bulk_emails] the number of
    contacts handled is at most [max 0 (min N max_emails 3)], where
    [max_emails] counts only when it is given and 3 only in test mode,
    so it is at most that minimum whenever [max_emails] is unset or not
    negative.  The tally a run returns adds up to the number of contacts
    handled, which is then that bound; a run returns its tally whenever
    its pauses return, and raises only what a pause raises.  Every
    iteration of the loop handles one contact; when it returns it has
    added one to exactly one of the two counters. *)
Theorem tally_counts_handled_contacts
    (email_sender : EmailSender.t) (from_email : string)
    (contacts : list Contact) (subject_template html_template : string)
    (text_template : option string) (delay : Z) (test_mode : bool)
    (max_emails : option Z) (E : Env) (st : State) :
  (exists (r : result (nat * nat)) (st' : State) (evs : list event),
     send_bulk_emails email_sender from_email contacts subject_template
       html_template text_template delay test_mode max_emails E st
       = (r, st')
     /\ trace st' = trace st ++ evs
     /\ Z.of_nat (length (handled evs)) <=
          Z.max 0 (cap_bound (length contacts) test_mode max_emails)
     /\ (match max_emails with Some m => 0 <= m | None => True end ->
         Z.of_nat (length (handled evs)) <=
           cap_bound (length contacts) test_mode max_emails)
     /\ match r with
        | Ret (sent, failed) =>
            (sent + failed = length (handled evs))%nat
            /\ Z.of_nat (length (handled evs)) =
                 Z.max 0 (cap_bound (length contacts) test_mode max_emails)
        | Raise e => sleep_outcome E delay = Some e
        end
     /\ (pauses_return E delay = true ->
         exists sent failed : nat, r = Ret (sent, failed)))
  /\ (forall (total_emails : Z) (i : nat) (contact : Contact)
        (sent failed : nat) (E' : Env) (st0 : State),
      exists (r : result (nat * nat)) (st1 : State) (evs : list event),
        iteration email_sender from_email subject_template html_template
          text_template delay total_emails i contact sent failed E' st0
          = (r, st1)
        /\ trace st1 = trace st0 ++ evs
        /\ length (handled evs) = 1%nat
        /\ match r with
           | Ret (sent', failed') =>
               (sent' = S sent /\ failed' = failed)
               \/ (sent' = sent /\ failed' = S failed)
           | Raise e => sleep_outcome E' delay = Some e
           end
        /\ (pauses_return E' delay = true ->
            exists sent' failed' : nat, r = Ret (sent', failed'))).
Proof.
  split.
  - destruct (send_bulk_emails_outcome email_sender from_email contacts
                subject_template html_template text_template delay test_mode
                max_emails E st)
      as (r & st' & evs & Hrun & Htr & _ & _ & _ & Hbound & Hr & Hret & _).
    exists r, st', evs.
    split; [exact Hrun|]. split; [exact Htr|]. split; [exact Hbound|].
    split; [|split; [|exact Hret]].
    + unfold cap_bound in *. destruct max_emails, test_mode; lia.
    + destruct r as [[sent failed]|e]; tauto.
  - intros total_emails i contact sent failed E' st0.
    destruct (iteration_spec email_sender from_email subject_template
                html_template text_template delay total_emails i contact
                sent failed E' st0)
      as (r & st1 & evs & Hrun & Htr & Hout & Hr).
    exists r, st1, evs.
    split; [exact Hrun|]. split; [exact Htr|].
    split; [now rewrite <- handled_outline, Hout, handled_plan_contact|].
    destruct r as [[sent' failed']|e].
    + split; [tauto|]. intros _. now exists sent', failed'.
    + destruct Hr as (Hsleep & Hp & _). split; [exact Hsleep|]. congruence.
Qed.

Lemma tally_counts_handled_contacts_witness :
  exists (sent failed : nat) (st' : State),
    send_bulk_emails sample_sender "me@example.org" [ann; no_address; bob]
      "Hello $name" "<p>Hello $name</p>" None 5 false (Some 2) smtp_up
      initial_state = (Ret (sent, failed), st')
    /\ (sent + failed = length (handled (trace st')))%nat
    /\ Z.of_nat (length (handled (trace st'))) <= cap_bound 3 false (Some 2).
Proof.
  destruct (tally_counts_handled_contacts sample_sender "me@example.org"
              [ann; no_address; bob] "Hello $name" "<p>Hello $name</p>" None
              5 false (Some 2) smtp_up initial_state)
    as [(r & st' & evs & Hrun & Htr & _ & Hle & Hr & Hreturns) _].
  destruct (Hreturns eq_refl) as (sent & failed & ->).
  exists sent, failed, st'. rewrite Htr. cbn [initial_state trace app].
  split; [exact Hrun|]. split; [apply Hr|].
  apply Hle. cbn. lia.
Defined.



(** C4. A contact whose [email] field is absent or empty, met by the
    loop before the cap, adds one to the failed count and a warning to
    the log, leaves the transport untouched (no call of [send_email], no
    SMTP operation, the session as it was), and the loop goes on with the
    next contact.  A run over the single contact
    [{"email": "", "name": "A"}] returns (0, 1) and logs three lines. *)
Theorem missing_email_counts_as_failed
    (email_sender : EmailSender.t) (from_email : string)
    (subject_template html_template : string)
    (text_template : option string) (delay : Z) (E : Env) (st : State) :
  (forall (max_emails : option Z) (total_emails : Z) (i : nat)
      (contact : Contact) (rest : list Contact) (sent failed : nat),
    contact !! "email" = None \/ contact !! "email" = Some (VStr "") ->
    cap_reached max_emails i = false ->
    iteration email_sender from_email subject_template html_template
      text_template delay total_emails i contact sent failed E st
      = (Ret (sent, S failed), record (Log (LogNoEmail (S i))) st)
    /\ send_loop email_sender from_email subject_template html_template
         text_template delay max_emails total_emails i (contact :: rest)
         sent failed E st
       = send_loop email_sender from_email subject_template html_template
           text_template delay max_emails total_emails (S i) rest
           sent (S failed) E (record (Log (LogNoEmail (S i))) st))
  /\ send_bulk_emails email_sender from_email [no_address] subject_template
       html_template text_template delay false None E st
     = (Ret (0%nat, 1%nat),
        record (Log (LogDone 0 1))
          (record (Log (LogNoEmail 1)) (record (Log (LogStart 1)) st))).
Proof.
  split.
  2: { unfold send_bulk_emails. cbn [test_limit_applies andb length].
       unfold bind at 1 2 3. cbn [ret log emit send_loop cap_reached].
       unfold bind at 1. rewrite iteration_unfold. reflexivity. }
  intros max_emails total_emails i contact rest sent failed Hemail Hcap.
  assert (Hiter :
    iteration email_sender from_email subject_template html_template
      text_template delay total_emails i contact sent failed E st
      = (Ret (sent, S failed), record (Log (LogNoEmail (S i))) st)).
  { rewrite iteration_unfold. unfold dict_get.
    destruct Hemail as [-> | ->]; reflexivity. }
  split; [exact Hiter|].
  cbn [send_loop]. rewrite Hcap. unfold bind at 1. rewrite Hiter. reflexivity.
Qed.

Lemma missing_email_counts_as_failed_witness :
  send_loop sample_sender "me@example.org" "Hello $name" "<p>Hello $name</p>"
    None 5 None 2 0 [no_address; ann] 0 0 smtp_up initial_state
  = send_loop sample_sender "me@example.org" "Hello $name" "<p>Hello $name</p>"
      None 5 None 2 1 [ann] 0 1 smtp_up
      (record (Log (LogNoEmail 1)) initial_state).
Proof.
  apply (missing_email_counts_as_failed sample_sender "me@example.org"
           "Hello $name" "<p>Hello $name</p>" None 5 smtp_up initial_state).
  - right. reflexivity.
  - reflexivity.
Defined.




(** ** Properties of the loaders and of [main] *)

Lemma load_template_spec (template_file : string) (E : Env) (st : State) :
  TemplateManager.load_template template_file E st =
    match read_text E template_file with
    | Some content => (Ret (Some content), record (OpenText template_file) st)
    | None =>
        (Ret None,
         record (Log (LogTemplateError (OSError template_file)))
           (record (OpenText template_file) st))
    end.
Proof.
  unfold TemplateManager.load_template, open_read, try_except, bind, emit, log,
    emit, ret.
  now destruct (read_text E template_file).
Qed.

Lemma get_contacts_from_csv_spec (csv_file : string) (E : Env) (st : State) :
  ContactManager.get_contacts_from_csv csv_file E st =
    match read_csv E csv_file with
    | Some rows =>
        (Ret rows,
         record (Log (LogCsvLoaded (length rows) csv_file))
           (record (OpenCsv csv_file) st))
    | None =>
        (Ret [],
         record (Log (LogCsvError (OSError csv_file)))
           (record (OpenCsv csv_file) st))
    end.
Proof.
  unfold ContactManager.get_contacts_from_csv, open_csv, try_except, bind,
    emit, log, emit, ret.
  now destruct (read_csv E csv_file).
Qed.

Lemma get_contacts_from_sqlite_spec (db_file : string) (query : option string)
    (E : Env) (st : State) :
  let q := match query with
           | Some q => q
           | None => ContactManager.default_query
           end in
  ContactManager.get_contacts_from_sqlite db_file query E st =
    match run_query E db_file q with
    | Some rows =>
        (Ret rows,
         record (Log (LogSqliteLoaded (length rows)))
           (record (SqliteQuery db_file q) st))
    | None =>
        (Ret [],
         record (Log (LogSqliteError (OSError db_file)))
           (record (SqliteQuery db_file q) st))
    end.
Proof.
  unfold ContactManager.get_contacts_from_sqlite, sqlite_rows, try_except, bind,
    emit, log, emit, ret.
  cbv zeta. now destruct (run_query E db_file _).
Qed.

(** Loading never raises and only adds loading events. *)
Lemma load_text_template_spec (args : Args) (E : Env) (st : State) :
  exists (text_template : option string) (st' : State) (evs : list event),
    load_text_template args E st = (Ret text_template, st')
    /\ trace st' = trace st ++ evs
    /\ forallb load_event evs = true.
Proof.
  unfold load_text_template.
  destruct (arg_text_template args) as [path|]; [destruct (nonempty path)|].
  - rewrite load_template_spec.
    destruct (read_text E path); eexists _, _, _;
      (split; [reflexivity|]); cbn [record trace]; rewrite <- ?app_assoc;
      split; reflexivity.
  - exists None, st, []. now rewrite app_nil_r.
  - exists None, st, []. now rewrite app_nil_r.
Qed.

Lemma load_contacts_spec (args : Args) (E : Env) (st : State) :
  exists (st' : State) (evs : list event),
    load_contacts args E st
      = (Ret (match source_rows E args with Some rows => rows | None => [] end),
         st')
    /\ trace st' = trace st ++ evs
    /\ forallb load_event evs = true
    /\ (source_rows E args = None ->
        exists r : log_record,
          last evs = Some (Log r) /\ level_of r = ERROR).
Proof.
  unfold load_contacts, source_rows.
  destruct (arg_source args).
  - rewrite get_contacts_from_csv_spec.
    destruct (read_csv E (arg_source_file args)); eexists _, _;
      (split; [reflexivity|]); cbn [record trace]; rewrite <- ?app_assoc;
      (split; [reflexivity|]); (split; [reflexivity|]);
      [discriminate|].
    intros _. eexists. split; reflexivity.
  - rewrite get_contacts_from_sqlite_spec. cbv zeta.
    destruct (run_query E (arg_source_file args) _); eexists _, _;
      (split; [reflexivity|]); cbn [record trace]; rewrite <- ?app_assoc;
      (split; [reflexivity|]); (split; [reflexivity|]);
      [discriminate|].
    intros _. eexists. split; reflexivity.
Qed.

Lemma load_event_quiet (evs : list event) :
  forallb load_event evs = true -> existsb send_event evs = false.
Proof.
  induction evs as [|ev evs IH]; [reflexivity|].
  cbn [forallb existsb]. intros [Hev Hevs]%andb_prop.
  rewrite (IH Hevs), orb_false_r.
  destruct ev as [[]| | | | | |]; cbn in Hev |- *; congruence.
Qed.

Lemma main_unfold (args : Args) (E : Env) (st : State) :
  main args E st =
    match read_text E (arg_template args) with
    | Some content =>
        if nonempty content
        then main_with_template args content E
               (record (OpenText (arg_template args)) st)
        else (Ret tt,
              record (Log LogNoHtmlTemplate)
                (record (OpenText (arg_template args)) st))
    | None =>
        (Ret tt,
         record (Log LogNoHtmlTemplate)
           (record (Log (LogTemplateError (OSError (arg_template args))))
              (record (OpenText (arg_template args)) st)))
    end.
Proof.
  unfold main, bind. rewrite load_template_spec.
  destruct (read_text E (arg_template args)) as [content|]; [|reflexivity].
  now destruct (nonempty content).
Qed.

(** [main] up to the test [if not contacts]. *)
Lemma main_with_template_unfold (args : Args) (content : string) (E : Env)
    (st : State) :
  exists (text_template : option string) (st' : State) (evs : list event),
    trace st' = trace st ++ evs
    /\ forallb load_event evs = true
    /\ (source_rows E args = None ->
        exists r : log_record,
          last evs = Some (Log r) /\ level_of r = ERROR)
    /\ main_with_template args content E st =
         match source_rows E args with
         | Some (row :: rows) =>
             send_all args content text_template (row :: rows) E st'
         | _ => (Ret tt, record (Log LogNoContacts) st')
         end.
Proof.
  unfold main_with_template, bind.
  destruct (load_text_template_spec args E st)
    as (text_template & st1 & evs1 & -> & Htr1 & Hload1).
  destruct (load_contacts_spec args E st1)
    as (st2 & evs2 & -> & Htr2 & Hload2 & Herr).
  exists text_template, st2, (evs1 ++ evs2).
  rewrite Htr2, Htr1, app_assoc, forallb_app, Hload1, Hload2.
  repeat split.
  - intros Hnone. destruct (Herr Hnone) as (r & Hlast & Hlevel).
    exists r. split; [|exact Hlevel].
    destruct evs2 as [|ev evs2]; [discriminate|].
    rewrite last_app. now rewrite Hlast.
  - now destruct (source_rows E args) as [[|row rows]|].
Qed.

(** C8. The loaders never raise: when reading the source raises they
    log an error and return the empty list.  When the source yields no
    contact, [main] returns without any call of [send_email] or SMTP
    operation, and the last line it logs is an error: "Aucun contact
    charge" whenever the HTML template was loaded. *)
Theorem load_failure_yields_no_contacts (E : Env) (st : State) :
  (forall csv_file : string,
    exists (contacts : list Contact) (st' : State),
      ContactManager.get_contacts_from_csv csv_file E st = (Ret contacts, st')
      /\ (read_csv E csv_file = None ->
          contacts = []
          /\ st' = record (Log (LogCsvError (OSError csv_file)))
                     (record (OpenCsv csv_file) st)
          /\ level_of (LogCsvError (OSError csv_file)) = ERROR))
  /\ (forall (db_file : string) (query : option string),
      exists (contacts : list Contact) (st' : State),
        ContactManager.get_contacts_from_sqlite db_file query E st
          = (Ret contacts, st')
        /\ (run_query E db_file
              (match query with
               | Some q => q
               | None => ContactManager.default_query
               end) = None ->
            contacts = []
            /\ last (trace st') = Some (Log (LogSqliteError (OSError db_file)))
            /\ level_of (LogSqliteError (OSError db_file)) = ERROR))
  /\ (forall args : Args,
      source_rows E args = None \/ source_rows E args = Some [] ->
      exists (st' : State) (evs : list event) (r : log_record),
        main args E st = (Ret tt, st')
        /\ trace st' = trace st ++ evs
        /\ existsb send_event evs = false
        /\ last evs = Some (Log r)
        /\ level_of r = ERROR
        /\ (forall content : string,
            read_text E (arg_template args) = Some content ->
            nonempty content = true -> r = LogNoContacts)).
Proof.
  split; [|split].
  - intros csv_file. rewrite get_contacts_from_csv_spec.
    destruct (read_csv E csv_file); eexists _, _; (split; [reflexivity|]);
      [discriminate|auto].
  - intros db_file query. rewrite get_contacts_from_sqlite_spec. cbv zeta.
    destruct (run_query E db_file _); eexists _, _; (split; [reflexivity|]);
      [discriminate|].
    intros _. split; [reflexivity|]. split; [|reflexivity].
    cbn [record trace]. apply last_snoc.
  - intros args Hrows. rewrite main_unfold.
    destruct (read_text E (arg_template args)) as [content|];
      [destruct (nonempty content) eqn:Hcontent|].
    + destruct (main_with_template_unfold args content E
                  (record (OpenText (arg_template args)) st))
        as (text_template & st1 & evs & Htr & Hload & _ & ->).
      exists (record (Log LogNoContacts) st1),
        (OpenText (arg_template args) :: evs ++ [Log LogNoContacts]),
        LogNoContacts.
      split; [now destruct Hrows as [-> | ->]|].
      cbn [record trace] in Htr |- *. rewrite Htr, <- !app_assoc.
      split; [reflexivity|].
      split.
      { cbn [existsb send_event orb]. rewrite existsb_app.
        now rewrite (load_event_quiet _ Hload). }
      split; [|auto].
      change (OpenText (arg_template args) :: evs ++ [Log LogNoContacts])
        with ((OpenText (arg_template args) :: evs) ++ [Log LogNoContacts]).
      apply last_snoc.
    + eexists _, _, LogNoHtmlTemplate. split; [reflexivity|].
      cbn [record trace]. rewrite <- !app_assoc.
      split; [reflexivity|]. split; [reflexivity|]. split; [reflexivity|].
      split; [reflexivity|]. intros c [= <-]. congruence.
    + eexists _, _, LogNoHtmlTemplate. split; [reflexivity|].
      cbn [record trace]. rewrite <- !app_assoc.
      split; [reflexivity|]. split; [reflexivity|]. split; [reflexivity|].
      split; [reflexivity|]. intros c [=].
Qed.

Lemma load_failure_yields_no_contacts_witness :
  (exists st' : State,
     ContactManager.get_contacts_from_csv "contacts.csv" no_contact_file
       initial_state = (Ret [], st'))
  /\ (exists st' : State,
        ContactManager.get_contacts_from_sqlite "contacts.db" None
          no_contact_file initial_state = (Ret [], st'))
  /\ (exists st' : State,
        main sample_args no_contact_file initial_state = (Ret tt, st')
        /\ existsb send_event (trace st') = false
        /\ last (trace st') = Some (Log LogNoContacts)).
Proof.
  destruct (load_failure_yields_no_contacts no_contact_file initial_state)
    as (Hcsv & Hsqlite & Hmain).
  split; [|split].
  - destruct (Hcsv "contacts.csv") as (contacts & st' & Hrun & Hfail).
    destruct Hfail as (-> & _); [reflexivity|].
    exists st'. exact Hrun.
  - destruct (Hsqlite "contacts.db" None) as (contacts & st' & Hrun & Hfail).
    destruct Hfail as (-> & _); [reflexivity|].
    exists st'. exact Hrun.
  - destruct (Hmain sample_args) as (st' & evs & r & Hrun & Htr & Hquiet
                                       & Hlast & _ & Hr);
      [left; reflexivity|].
    exists st'. split; [exact Hrun|].
    rewrite Htr. cbn [initial_state trace app].
    split; [exact Hquiet|].
    rewrite Hlast, (Hr "<p>Hello $name</p>"); reflexivity.
Defined.

(** C10. When the HTML template file is read but is empty, [main]
    logs "Impossible de charger le modele HTML" and returns: the trace
    only gains the opening of the template file and that error line, so
    no contact is loaded and nothing is sent. *)
Theorem empty_template_aborts (args : Args) (E : Env) (st : State) :
  read_text E (arg_template args) = Some "" ->
  main args E st =
    (Ret tt,
     record (Log LogNoHtmlTemplate) (record (OpenText (arg_template args)) st))
  /\ level_of LogNoHtmlTemplate = ERROR.
Proof.
  intros Hread. rewrite main_unfold, Hread. split; reflexivity.
Qed.

Lemma empty_template_aborts_witness :
  main sample_args empty_template initial_state =
    (Ret tt,
     {| smtp_session := None;
        smtp_calls := 0;
        trace := [OpenText "mail.html"; Log LogNoHtmlTemplate] |}).
Proof.
  apply (empty_template_aborts sample_args empty_template initial_state).
  reflexivity.
Defined.

Lemma disconnect_spec (self : EmailSender.t) (E : Env) (st : State) :
  trace (snd (EmailSender.disconnect self E st)) =
    trace st ++ closing_events E st
  /\ fst (EmailSender.disconnect self E st) =
       match smtp_session st with
       | Some _ =>
           if smtp_ok E (smtp_calls st)
           then Ret tt
           else Raise (SMTPException SMTP_quit)
       | None => Ret tt
       end.
Proof.
  unfold closing_events. run_prims.
  destruct (smtp_session st); cbn [fst snd trace]; [|now rewrite app_nil_r].
  destruct (smtp_ok E (smtp_calls st)); cbn [fst snd trace];
    rewrite <- ?app_assoc; split; reflexivity.
Qed.

(** What [try: body finally: cleanup] leaves: the cleanup runs from the
    state in which the body stopped, whether it returned or raised. *)
Lemma try_finally_runs_cleanup {A : Type} (body : M A) (cleanup : M unit)
    (E : Env) (st : State) :
  snd (try_finally body cleanup E st) = snd (cleanup E (snd (body E st)))
  /\ fst (try_finally body cleanup E st) =
       match fst (cleanup E (snd (body E st))) with
       | Ret _ => fst (body E st)
       | Raise e => Raise e
       end.
Proof.
  unfold try_finally. destruct (body E st) as [r st1]. cbn [fst snd].
  now destruct (cleanup E st1) as [[|] st2].
Qed.

(** C9. Whenever [main] reaches the bulk send (a non-empty HTML
    template and at least one contact), it runs [disconnect] from the
    state in which [send_bulk_emails] stopped, whether the loop returned
    its tally or was cut short by a pause that raised: the trace of the
    run ends with the closing of the session, an SMTP [quit] whenever a
    session object was created.  The exception of the loop leaves [main]
    after the closing, unless [quit] raises its own. *)
Theorem disconnect_runs_after_bulk_send (E : Env) (st : State) (args : Args)
    (content : string) (row : Contact) (rows : list Contact) :
  read_text E (arg_template args) = Some content ->
  nonempty content = true ->
  source_rows E args = Some (row :: rows) ->
  exists (text_template : option string) (st0 : State)
      (r : result (nat * nat)) (st1 : State),
    smtp_session st0 = None
    /\ existsb send_event (drop (length (trace st)) (trace st0)) = false
    /\ send_bulk_emails (sender_of args) (arg_from_email args) (row :: rows)
         (arg_subject args) content text_template (arg_delay args)
         (arg_test args) (arg_max_emails args) E st0 = (r, st1)
    /\ snd (main args E st)
         = snd (EmailSender.disconnect (sender_of args) E st1)
    /\ trace (snd (main args E st)) = trace st1 ++ closing_events E st1
    /\ (forall session : SMTP,
        smtp_session st1 = Some session ->
        hd_error (closing_events E st1)
        = Some (Smtp SMTP_quit (smtp_ok E (smtp_calls st1))))
    /\ fst (main args E st) =
         match fst (EmailSender.disconnect (sender_of args) E st1) with
         | Ret _ => match r with Ret _ => Ret tt | Raise e => Raise e end
         | Raise e => Raise e
         end
    /\ (forall e : exn,
        r = Raise e ->
        sleep_outcome E (arg_delay args) = Some e
        /\ last (trace st1) = Some (Sleep (arg_delay args)))
    /\ (pauses_return E (arg_delay args) = true ->
        exists sent failed : nat, r = Ret (sent, failed)).
Proof.
  intros Hread Hcontent Hrows.
  rewrite main_unfold, Hread, Hcontent.
  destruct (main_with_template_unfold args content E
              (record (OpenText (arg_template args)) st))
    as (text_template & st_loaded & evs & Htr & Hload & _ & ->).
  rewrite Hrows.
  set (st0 := {| smtp_session := None;
                 smtp_calls := smtp_calls st_loaded;
                 trace := trace st_loaded |}).
  destruct (send_bulk_emails_outcome (sender_of args) (arg_from_email args)
              (row :: rows) (arg_subject args) content text_template
              (arg_delay args) (arg_test args) (arg_max_emails args) E st0)
    as (r & st1 & body & Hbulk & Htr1 & _ & _ & _ & _ & Hr & Hret & _).
  exists text_template, st0, r, st1.
  split; [reflexivity|].
  split.
  { subst st0. cbn [trace record] in Htr |- *. rewrite Htr, <- app_assoc.
    rewrite drop_app_length. cbn [app existsb send_event orb].
    apply load_event_quiet, Hload. }
  split; [exact Hbulk|].
  assert (Hall : send_all args content text_template (row :: rows) E st_loaded
                 = try_finally
                     (bind (send_bulk_emails (sender_of args)
                              (arg_from_email args) (row :: rows)
                              (arg_subject args) content text_template
                              (arg_delay args) (arg_test args)
                              (arg_max_emails args))
                        (fun _ => ret tt))
                     (EmailSender.disconnect (sender_of args)) E st0)
    by reflexivity.
  rewrite Hall.
  destruct (try_finally_runs_cleanup
              (bind (send_bulk_emails (sender_of args) (arg_from_email args)
                       (row :: rows) (arg_subject args) content text_template
                       (arg_delay args) (arg_test args) (arg_max_emails args))
                 (fun _ => ret tt))
              (EmailSender.disconnect (sender_of args)) E st0)
    as [Hstate Hresult].
  assert (Hbody : bind (send_bulk_emails (sender_of args) (arg_from_email args)
                          (row :: rows) (arg_subject args) content
                          text_template (arg_delay args) (arg_test args)
                          (arg_max_emails args))
                    (fun _ => ret tt) E st0
                  = (match r with Ret _ => Ret tt | Raise e => Raise e end, st1)).
  { unfold bind. rewrite Hbulk. now destruct r. }
  rewrite Hbody in Hstate, Hresult. cbn [fst snd] in Hstate, Hresult.
  split; [exact Hstate|].
  split; [rewrite Hstate; apply disconnect_spec|].
  split; [intros session Hsession; unfold closing_events;
          now rewrite Hsession|].
  split; [exact Hresult|].
  split; [|exact Hret].
  intros e ->. destruct Hr as (Hsleep & _ & _ & Hlast).
  split; [exact Hsleep|]. rewrite Htr1, last_app, Hlast. reflexivity.
Qed.

Lemma disconnect_runs_after_bulk_send_witness :
  (exists (text_template : option string) (st0 : State)
       (r : result (nat * nat)) (st1 : State),
     send_bulk_emails (sender_of sample_args) "me@example.org" [ann; bob]
       "Hello $name" "<p>Hello $name</p>" text_template 5 false None
       clock_refuses st0 = (r, st1)
     /\ trace (snd (main sample_args clock_refuses initial_state))
          = trace st1 ++ closing_events clock_refuses st1)
  /\ fst (main sample_args clock_refuses initial_state) = Raise ClockOSError
  /\ drop 11 (trace (snd (main sample_args clock_refuses initial_state)))
     = [Log (LogEmailSent (VStr "ann@example.org")); Sleep 5;
        Smtp SMTP_quit true; Log LogSmtpDisconnected].
Proof.
  split; [|vm_compute; split; reflexivity].
  destruct (disconnect_runs_after_bulk_send clock_refuses initial_state
              sample_args "<p>Hello $name</p>" ann [bob]
              ltac:(reflexivity) ltac:(reflexivity) ltac:(reflexivity))
    as (text_template & st0 & r & st1 & _ & _ & Hbulk & _ & Htrace & _).
  exists text_template, st0, r, st1. split; [exact Hbulk|exact Htrace].
Defined.

(** A run in which STARTTLS is refused: both sends fail, and the run
    still ends with the [quit] of [disconnect], which raises out of
    [main]. *)
Example starttls_refused_run :
  let run := main sample_args starttls_refused initial_state in
  fst run = Raise (SMTPException SMTP_quit)
  /\ List.filter is_send_call (trace (snd run)) =
       [SendEmailCall "me@example.org" (VStr "ann@example.org") "Hello Ann"
          (Some "<p>Hello Ann</p>") None;
        SendEmailCall "me@example.org" (VStr "bob@example.org") "Hello Bob"
          (Some "<p>Hello Bob</p>") None]
  /\ last (trace (snd run)) = Some (Smtp SMTP_quit false)
  /\ In (Log (LogDone 0 2)) (trace (snd run)).
Proof. vm_compute. repeat split; auto 20. Qed.

Section Substitution.

Import Template.

Variable mapping : Contact.

Lemma append_cons (c : ascii) (s t : string) :
  String c s +:+ t = String c (s +:+ t).
Proof. reflexivity. Qed.

Lemma length_append (s t : string) :
  String.length (s +:+ t) = (String.length s + String.length t)%nat.
Proof.
  induction s as [|c s IH]; [reflexivity|].
  rewrite append_cons. cbn [String.length]. now rewrite IH.
Qed.

Lemma append_assoc (a b c : string) : (a +:+ b) +:+ c = a +:+ (b +:+ c).
Proof.
  induction a as [|x a IH]; [reflexivity|].
  rewrite !append_cons. now rewrite IH.
Qed.

(** Skipping the characters of a match resumes the scan after it. *)
Lemma sub_skip (x rest : string) :
  sub mapping (String.length x) (x +:+ rest) = sub mapping 0 rest.
Proof.
  induction x as [|c x IH]; [reflexivity|].
  rewrite append_cons. cbn [String.length sub]. exact IH.
Qed.

Lemma id_start_not_dollar (c : ascii) :
  id_start c = true -> is_dollar c = false.
Proof. destruct c as [[] [] [] [] [] [] [] []]; vm_compute; congruence. Qed.

Lemma id_start_id_char (c : ascii) : id_start c = true -> id_char c = true.
Proof. unfold id_char. now intros ->. Qed.

Lemma span_id_app (id post : string) :
  all_id_chars id = true -> starts_with_id_char post = false ->
  span_id (id +:+ post) = (id, post).
Proof.
  intros Hid Hpost. induction id as [|c id IH].
  - destruct post as [|c r]; [reflexivity|].
    cbn [starts_with_id_char] in Hpost.
    change ("" +:+ String c r) with (String c r).
    cbn [span_id]. now rewrite Hpost.
  - cbn [all_id_chars] in Hid. apply andb_prop in Hid as [Hc Hid].
    rewrite append_cons. cbn [span_id]. now rewrite Hc, (IH Hid).
Qed.

Lemma match_named (id post : string) :
  is_identifier id = true -> starts_with_id_char post = false ->
  match_after_dollar (id +:+ post) = Named id.
Proof.
  intros Hid Hpost. destruct id as [|c id]; [discriminate|].
  cbn [is_identifier] in Hid. apply andb_prop in Hid as [Hc Hid].
  unfold match_after_dollar. rewrite append_cons.
  rewrite (id_start_not_dollar c Hc), Hc.
  rewrite <- append_cons, span_id_app; [reflexivity| |exact Hpost].
  cbn [all_id_chars]. now rewrite (id_start_id_char c Hc), Hid.
Qed.

Lemma match_braced (id post : string) :
  is_identifier id = true ->
  match_after_dollar ("{" +:+ id +:+ "}" +:+ post) = Braced id.
Proof.
  intros Hid. destruct id as [|c id]; [discriminate|].
  pose proof Hid as Hid'.
  cbn [is_identifier] in Hid. apply andb_prop in Hid as [Hc Hid].
  change ("{" +:+ String c id +:+ "}" +:+ post)
    with (String "{" (String c (id +:+ "}" +:+ post))).
  unfold match_after_dollar.
  change (is_dollar "{") with false. change (id_start "{") with false.
  change (Ascii.eqb "{" "{") with true. cbv iota. rewrite Hc.
  change (String c (id +:+ "}" +:+ post))
    with (String c id +:+ String "}" post).
  rewrite span_id_app; [reflexivity| |reflexivity].
  cbn [all_id_chars]. now rewrite (id_start_id_char c Hc), Hid.
Qed.

Lemma sub_scan (s : string) :
  forall skip : nat,
    sub mapping skip s = concat (map (render mapping) (scan skip s)).
Proof.
  induction s as [|c s IH]; intros skip; [reflexivity|].
  cbn [sub scan]. destruct skip as [|k]; [|apply IH].
  destruct (is_dollar c); cbn [map concat render]; now rewrite IH.
Qed.

Lemma scan_skip (x rest : string) :
  scan (String.length x) (x +:+ rest) = scan 0 rest.
Proof.
  induction x as [|c x IH]; [reflexivity|].
  rewrite append_cons. cbn [String.length scan]. exact IH.
Qed.

Lemma span_id_split (s : string) :
  s = fst (span_id s) +:+ snd (span_id s).
Proof.
  induction s as [|c s IH]; [reflexivity|].
  cbn [span_id]. destruct (id_char c); [|reflexivity].
  destruct (span_id s) as [id tail]. cbn [fst snd] in IH |- *.
  rewrite append_cons. now rewrite <- IH.
Qed.

(** A match covers the dollar and a prefix of what follows it. *)
Lemma match_covers_prefix (rest : string) :
  exists x post : string,
    rest = x +:+ post
    /\ group_text (match_after_dollar rest) = String "$" x.
Proof.
  assert (Hinvalid : exists x post : string,
             rest = x +:+ post /\ group_text Invalid = String "$" x)
    by (now exists "", rest).
  unfold match_after_dollar.
  destruct rest as [|c tail]; [exact Hinvalid|].
  destruct (is_dollar c) eqn:Hdollar.
  { apply Ascii.eqb_eq in Hdollar as ->. now exists "$", tail. }
  destruct (id_start c).
  { exists (fst (span_id (String c tail))), (snd (span_id (String c tail))).
    split; [apply span_id_split|reflexivity]. }
  destruct (Ascii.eqb c "{") eqn:Hbrace; [|exact Hinvalid].
  apply Ascii.eqb_eq in Hbrace as ->.
  destruct tail as [|c' tail']; [exact Hinvalid|].
  destruct (id_start c'); [|exact Hinvalid].
  pose proof (span_id_split (String c' tail')) as Hsplit.
  destruct (span_id (String c' tail')) as [id [|c'' post]];
    [exact Hinvalid|].
  destruct (Ascii.eqb c'' "}") eqn:Hclose; [|exact Hinvalid].
  apply Ascii.eqb_eq in Hclose as ->. cbn [fst snd] in Hsplit.
  exists ("{" +:+ id +:+ "}"), post. split; [|reflexivity].
  rewrite Hsplit.
  change (("{" +:+ id +:+ "}") +:+ post) with ("{" +:+ (id +:+ "}") +:+ post).
  now rewrite (append_assoc id "}" post).
Qed.

(** The tokens of a template spell the template. *)
Lemma tokens_spell_template (template : string) :
  concat (map token_text (tokens template)) = template.
Proof.
  unfold tokens.
  assert (H : forall (n : nat) (s : string),
             (String.length s <= n)%nat ->
             concat (map token_text (scan 0 s)) = s).
  { induction n as [|n IH]; intros s Hlen.
    - destruct s; [reflexivity|cbn in Hlen; lia].
    - destruct s as [|c s]; [reflexivity|].
      cbn [String.length] in Hlen. cbn [scan].
      destruct (is_dollar c) eqn:Hdollar; cbn [map concat token_text].
      + apply Ascii.eqb_eq in Hdollar as ->.
        destruct (match_covers_prefix s) as (x & post & Hs & Htext).
        rewrite Htext. cbn [String.length Nat.pred].
        assert (Hpost : (String.length post <= n)%nat)
          by (rewrite Hs, length_append in Hlen; lia).
        rewrite Hs, scan_skip, (IH post Hpost). reflexivity.
      + rewrite append_cons. change ("" +:+ ?a) with a.
        rewrite IH by lia. reflexivity. }
  exact (H (String.length template) template (le_n _)).
Qed.

Lemma safe_substitute_dollar (rest : string) :
  safe_substitute (String "$" rest) mapping =
    convert mapping (match_after_dollar rest)
      +:+ sub mapping
            (Nat.pred (String.length (group_text (match_after_dollar rest))))
            rest.
Proof. reflexivity. Qed.

End Substitution.

(** C6. Personalisation is [safe_substitute] and always yields a text:
    [personalize_message] returns it from every state, without raising,
    without taking its [except] branch and without logging anything.
    The output is the template, token by token, where a placeholder
    [$id] or [${id}] whose name is a field of the contact is replaced by
    the text of that field and one whose name is no field is copied as
    it stands; [$$] gives one dollar, any other dollar and every other
    character are copied; so a template none of whose tokens changes
    comes back as it is.  The same is stated on the text itself for a
    template that starts with a placeholder.  The loop passes the
    subject, the HTML body and the text body (when a non-empty text
    template is given) through it before it calls [send_email]; what
    follows that call in the iteration are events of the transport and
    the pause, and the iteration raises only what its pause raises. *)
Theorem personalization_is_safe_substitution (contact : Contact) :
  (forall template : string,
    (forall (E : Env) (st : State),
      TemplateManager.personalize_message template contact E st
        = (Ret (Some (Template.safe_substitute template contact)), st))
    /\ Template.safe_substitute template contact
        = Template.concat
            (map (Template.render contact) (Template.tokens template))
    /\ Template.concat (map Template.token_text (Template.tokens template))
        = template)
  /\ (forall id : string,
      Template.render contact (Template.Match (Template.Named id)) =
        match contact !! id with
        | Some v => py_str v
        | None => Template.token_text (Template.Match (Template.Named id))
        end
      /\ Template.render contact (Template.Match (Template.Braced id)) =
          match contact !! id with
          | Some v => py_str v
          | None => Template.token_text (Template.Match (Template.Braced id))
          end
      /\ Template.token_text (Template.Match (Template.Named id)) = "$" +:+ id
      /\ Template.token_text (Template.Match (Template.Braced id))
          = "${" +:+ id +:+ "}")
  /\ (forall c : ascii,
      Template.render contact (Template.Plain c)
        = Template.token_text (Template.Plain c))
  /\ Template.render contact (Template.Match Template.Invalid)
      = Template.token_text (Template.Match Template.Invalid)
  /\ (forall template : string,
      Forall (fun t => Template.render contact t = Template.token_text t)
        (Template.tokens template) ->
      Template.safe_substitute template contact = template)
  /\ (forall id post : string,
      Template.is_identifier id = true ->
      Template.starts_with_id_char post = false ->
      Template.safe_substitute ("$" +:+ id +:+ post) contact =
        match contact !! id with
        | Some v => py_str v
        | None => "$" +:+ id
        end +:+ Template.safe_substitute post contact)
  /\ (forall id post : string,
      Template.is_identifier id = true ->
      Template.safe_substitute ("${" +:+ id +:+ "}" +:+ post) contact =
        match contact !! id with
        | Some v => py_str v
        | None => "${" +:+ id +:+ "}"
        end +:+ Template.safe_substitute post contact)
  /\ (forall rest : string,
      Template.safe_substitute ("$$" +:+ rest) contact
        = "$" +:+ Template.safe_substitute rest contact)
  /\ (forall rest : string,
      Template.match_after_dollar rest = Template.Invalid ->
      Template.safe_substitute ("$" +:+ rest) contact
        = "$" +:+ Template.safe_substitute rest contact)
  /\ (forall (c : ascii) (rest : string),
      Template.is_dollar c = false ->
      Template.safe_substitute (String c rest) contact
        = String c (Template.safe_substitute rest contact))
  /\ Template.safe_substitute "" contact = ""
  /\ (forall (email_sender : EmailSender.t) (from_email : string)
        (subject_template html_template : string)
        (text_template : option string) (delay total_emails : Z) (i : nat)
        (sent failed : nat) (E : Env) (st : State),
      truthy (dict_get contact "email") = true ->
      exists (r : result (nat * nat)) (st' : State) (evs : list event),
        iteration email_sender from_email subject_template html_template
          text_template delay total_emails i contact sent failed E st
          = (r, st')
        /\ forallb (fun ev => transport_event ev || is_sleep ev) evs = true
        /\ (forall e : exn, r = Raise e -> sleep_outcome E delay = Some e)
        /\ trace st' =
             trace st
               ++ SendEmailCall from_email (dict_get contact "email")
                    (Template.safe_substitute subject_template contact)
                    (Some (Template.safe_substitute html_template contact))
                    (match text_template with
                     | Some t =>
                         if nonempty t
                         then Some (Template.safe_substitute t contact)
                         else None
                     | None => None
                     end)
               :: evs).
Proof.
  split.
  { intros template. split; [intros E st; reflexivity|].
    split; [apply sub_scan|apply tokens_spell_template]. }
  split; [intros id; repeat split; reflexivity|].
  split; [reflexivity|].
  split; [reflexivity|].
  split.
  { intros template Hsame.
    rewrite <- (tokens_spell_template template) at 2.
    unfold Template.safe_substitute. rewrite sub_scan. f_equal.
    apply map_ext_in. intros t Hin.
    rewrite Forall_forall in Hsame. apply Hsame, list_elem_of_In, Hin. }
  split.
  { intros id post Hid Hpost.
    change ("$" +:+ id +:+ post) with (String "$" (id +:+ post)).
    rewrite safe_substitute_dollar, (match_named id post Hid Hpost).
    cbn [Template.convert Template.group_text].
    change (String.length ("$" +:+ id)) with (S (String.length id)).
    cbn [Nat.pred]. now rewrite sub_skip. }
  split.
  { intros id post Hid.
    change ("${" +:+ id +:+ "}" +:+ post)
      with (String "$" ("{" +:+ id +:+ "}" +:+ post)).
    rewrite safe_substitute_dollar, (match_braced id post Hid).
    cbn [Template.convert Template.group_text].
    change (String.length ("${" +:+ id +:+ "}"))
      with (S (String.length ("{" +:+ id +:+ "}"))).
    cbn [Nat.pred].
    rewrite <- (append_assoc id "}" post).
    change ("{" +:+ (id +:+ "}") +:+ post) with (("{" +:+ id +:+ "}") +:+ post).
    now rewrite sub_skip. }
  split; [reflexivity|].
  split.
  { intros rest Hinvalid.
    change ("$" +:+ rest) with (String "$" rest).
    rewrite safe_substitute_dollar, Hinvalid. reflexivity. }
  split.
  { intros c rest Hc. unfold Template.safe_substitute.
    cbn [Template.sub]. now rewrite Hc. }
  split; [reflexivity|].
  intros email_sender from_email subject_template html_template text_template
    delay total_emails i sent failed E st Hrecipient.
  rewrite iteration_unfold, Hrecipient. cbn [negb].
  match goal with
  | |- context [EmailSender.send_email ?a ?b ?c ?d ?e ?f] =>
      destruct (send_email_returns a b c d e f E st)
        as (b' & st1 & evs1 & Hrun & Htr & Htrans & _)
  end.
  unfold bind at 1. rewrite Hrun. cbv beta iota.
  destruct (pause_spec delay total_emails i E st1)
    as (r & st2 & Hpause & Htr2 & _ & _ & Hr).
  unfold bind at 1. rewrite Hpause.
  assert (Hevs : forallb (fun ev => transport_event ev || is_sleep ev)
                   (evs1 ++ pause_after delay total_emails i) = true).
  { rewrite forallb_app. apply andb_true_intro. split.
    - clear -Htrans. induction evs1 as [|ev evs1 IH]; [reflexivity|].
      cbn [forallb] in *. apply andb_prop in Htrans as [-> Htrans].
      now rewrite (IH Htrans).
    - unfold pause_after. now destruct (_ && _). }
  destruct r as [[]|e].
  - eexists (Ret _), st2, _. split; [reflexivity|].
    split; [exact Hevs|]. split; [discriminate|].
    rewrite Htr2, Htr, <- app_assoc. reflexivity.
  - eexists (Raise e), st2, _. split; [reflexivity|].
    split; [exact Hevs|]. split; [intros e' [= <-]; apply Hr|].
    rewrite Htr2, Htr, <- app_assoc. reflexivity.
Qed.

Lemma personalization_is_safe_substitution_witness :
  Template.safe_substitute "Hi $unknown_field, send ${iban} $ 5" ann
    = "Hi $unknown_field, send ${iban} $ 5"
  /\ Template.safe_substitute ("$" +:+ "unknown_field" +:+ ", hello") ann
    = "$unknown_field" +:+ Template.safe_substitute ", hello" ann
  /\ Template.safe_substitute ("${" +:+ "name" +:+ "}" +:+ "s") ann
      = "Ann" +:+ Template.safe_substitute "s" ann
  /\ Template.safe_substitute ("$" +:+ "5 only") ann
      = "$" +:+ Template.safe_substitute "5 only" ann
  /\ Template.safe_substitute "Hi" ann
      = String "H" (Template.safe_substitute "i" ann)
  /\ (exists (r : result (nat * nat)) (st' : State) (evs : list event),
        iteration sample_sender "me@example.org" "Hello $name"
          "<p>$name, $unknown_field</p>" None 5 1 0 ann 0 0 smtp_up
          initial_state = (r, st')
        /\ forallb (fun ev => transport_event ev || is_sleep ev) evs = true
        /\ (forall e : exn, r = Raise e -> sleep_outcome smtp_up 5 = Some e)
        /\ trace st' =
             SendEmailCall "me@example.org" (VStr "ann@example.org")
               (Template.safe_substitute "Hello $name" ann)
               (Some (Template.safe_substitute "<p>$name, $unknown_field</p>"
                        ann))
               None
             :: evs).
Proof.
  destruct (personalization_is_safe_substitution ann)
    as (_ & _ & _ & _ & Hsame & Hnamed & Hbraced & _ & Hinvalid & Hother & _
        & Hloop).
  split.
  { apply Hsame. vm_compute. repeat constructor. }
  split; [exact (Hnamed "unknown_field" ", hello" eq_refl eq_refl)|].
  split; [exact (Hbraced "name" "s" eq_refl)|].
  split; [exact (Hinvalid "5 only" eq_refl)|].
  split; [exact (Hother "H"%char "i" eq_refl)|].
  exact (Hloop sample_sender "me@example.org" "Hello $name"
           "<p>$name, $unknown_field</p>" None 5 1 0%nat 0%nat 0%nat smtp_up
           initial_state eq_refl).
Defined.

(** The example of the specification: an unknown placeholder is copied,
    known ones are replaced, whatever surrounds them. *)
Example unknown_placeholder_unchanged :
  Template.safe_substitute "Dear $name, $unknown_field ${name}s $$5 ${ x} $1"
    ann
  = "Dear Ann, $unknown_field Anns $5 ${ x} $1"
  /\ TemplateManager.personalize_message "$unknown_field" ann smtp_up
       initial_state
     = (Ret (Some "$unknown_field"), initial_state).
Proof. vm_compute. split; reflexivity. Qed.

(** ** Further properties of [EmailSender] *)

(** X1. [connect] never raises.  It performs the four operations in
    order and stops at the first that raises; it returns [True] exactly
    when all four succeed.  The attribute [smtp_session] is set as soon
    as [smtplib.SMTP] returned, also when a later step fails, and is left
    as it was when [smtplib.SMTP] itself raises. *)
Theorem connect_outcome (self : EmailSender.t) (E : Env) (st : State) :
  let n := smtp_calls st in
  let all_ok := smtp_ok E n && smtp_ok E (S n) && smtp_ok E (S (S n))
                && smtp_ok E (S (S (S n))) in
  exists (st' : State) (evs : list event),
    EmailSender.connect self E st = (Ret all_ok, st')
    /\ trace st' = trace st ++ evs
    /\ smtp_session st' =
         (if smtp_ok E n
          then Some (SMTP_session (EmailSender.server self)
                       (EmailSender.port self))
          else smtp_session st)
    /\ hd_error evs =
         Some (Smtp (SMTP_open (EmailSender.server self)
                       (EmailSender.port self)) (smtp_ok E n))
    /\ (count smtp_failed evs <= 1)%nat
    /\ (exists r : log_record,
          last evs = Some (Log r)
          /\ level_of r = (if all_ok then INFO else ERROR)).
Proof.
  cbv zeta. run_prims. case_smtp E;
    eexists _, _; (split; [reflexivity|]);
    cbn [trace smtp_session]; rewrite <- ?app_assoc; cbn [app];
    (split; [reflexivity|]); (split; [reflexivity|]);
    (split; [reflexivity|]); (split; [cbn; lia|]);
    eexists; split; reflexivity.
Qed.

(** X2. Once [smtp_session] is set, [send_email] does not connect
    again: it performs one SMTP operation, the sending of the composed
    message, returns its outcome and leaves the session as it is.  This
    also holds after a [connect] that failed past [smtplib.SMTP]. *)
Theorem send_email_reuses_session (self : EmailSender.t) (from_email : string)
    (to_email : value) (subject html : string) (message_text : option string)
    (E : Env) (st : State) (session : SMTP) :
  smtp_session st = Some session ->
  let msg := message_of from_email to_email subject html message_text in
  let ok := smtp_ok E (smtp_calls st) in
  EmailSender.send_email self from_email to_email subject (Some html)
    message_text E st
  = (Ret ok,
     {| smtp_session := Some session;
        smtp_calls := S (smtp_calls st);
        trace :=
          trace st
            ++ [SendEmailCall from_email to_email subject (Some html)
                  message_text;
                Smtp (SMTP_send_message msg) ok;
                Log (if ok then LogEmailSent to_email
                     else LogEmailError to_email
                            (SMTPException (SMTP_send_message msg)))] |}).
Proof.
  intros Hsession. cbv zeta. unfold message_of. run_prims.
  rewrite Hsession. cbn [smtp_session smtp_calls trace].
  destruct (smtp_ok E (smtp_calls st));
    cbn [smtp_session smtp_calls trace]; rewrite <- ?app_assoc; reflexivity.
Qed.

Lemma send_email_reuses_session_witness :
  let st1 :=
    snd (EmailSender.send_email (sender_of sample_args) "me@example.org"
           (VStr "ann@example.org") "Hello" (Some "<p>Hello</p>") None
           starttls_refused initial_state) in
  let second :=
    EmailSender.send_email (sender_of sample_args) "me@example.org"
      (VStr "bob@example.org") "Hello" (Some "<p>Hello</p>") None
      starttls_refused st1 in
  fst second = Ret false
  /\ count is_smtp (trace (snd second)) = (count is_smtp (trace st1) + 1)%nat.
Proof.
  cbv zeta.
  rewrite (send_email_reuses_session (sender_of sample_args)
             "me@example.org" (VStr "bob@example.org") "Hello"
             "<p>Hello</p>" None starttls_refused _
             (SMTP_session "smtp.example.org" 587))
    by (vm_compute; reflexivity).
  vm_compute. split; reflexivity.
Defined.

(** X3. With no session set, [send_email] connects first: its first
    SMTP operation is [smtplib.SMTP(server, port)].  It returns [True]
    exactly when the four operations of [connect] and the sending
    succeed, and when [smtplib.SMTP] raises the session stays unset, so
    that the next call tries to connect again. *)
Theorem send_email_connects_lazily (self : EmailSender.t) (from_email : string)
    (to_email : value) (subject html : string) (message_text : option string)
    (E : Env) (st : State) :
  smtp_session st = None ->
  let n := smtp_calls st in
  exists (st' : State) (evs : list event),
    EmailSender.send_email self from_email to_email subject (Some html)
      message_text E st
    = (Ret (smtp_ok E n && smtp_ok E (S n) && smtp_ok E (S (S n))
            && smtp_ok E (S (S (S n))) && smtp_ok E (S (S (S (S n))))), st')
    /\ trace st' =
         trace st
           ++ SendEmailCall from_email to_email subject (Some html)
                message_text
           :: Smtp (SMTP_open (EmailSender.server self)
                      (EmailSender.port self)) (smtp_ok E n)
           :: evs
    /\ smtp_session st' =
         (if smtp_ok E n
          then Some (SMTP_session (EmailSender.server self)
                       (EmailSender.port self))
          else None)
    /\ (count is_smtp evs <= 4)%nat.
Proof.
  intros Hsession. cbv zeta. run_prims.
  rewrite Hsession. cbn [smtp_session smtp_calls trace].
  case_smtp E;
    eexists _, _; (split; [reflexivity|]);
    cbn [trace smtp_session]; rewrite <- ?app_assoc; cbn [app];
    (split; [reflexivity|]); (split; [reflexivity|]); cbn; lia.
Qed.

Lemma send_email_connects_lazily_witness :
  exists (st' : State) (evs : list event),
    EmailSender.send_email sample_sender "me@example.org"
      (VStr "ann@example.org") "Hello" (Some "<p>Hello</p>") None smtp_up
      initial_state = (Ret true, st')
    /\ smtp_session st' = Some (SMTP_session "smtp.example.org" 587).
Proof.
  destruct (send_email_connects_lazily sample_sender "me@example.org"
              (VStr "ann@example.org") "Hello" "<p>Hello</p>" None smtp_up
              initial_state eq_refl)
    as (st' & evs & Hrun & _ & Hsession & _).
  exists st', evs. split; [exact Hrun|exact Hsession].
Defined.

(** ** The session and the log along the loop *)

Lemma count_app (f : event -> bool) (l1 l2 : list event) :
  count f (l1 ++ l2) = (count f l1 + count f l2)%nat.
Proof. unfold count. now rewrite List.filter_app, length_app. Qed.

Lemma send_email_effects (self : EmailSender.t) (from_email : string)
    (to_email : value) (subject : string)
    (message_html message_text : option string) (E : Env) (st : State) :
  exists (b : bool) (st' : State) (evs : list event),
    EmailSender.send_email self from_email to_email subject
      message_html message_text E st = (Ret b, st')
    /\ trace st' =
         trace st
           ++ SendEmailCall from_email to_email subject message_html message_text
           :: evs
    /\ forallb transport_event evs = true
    /\ count logged_sent evs = (if b then 1 else 0)%nat
    /\ count opened evs = newly_opened (smtp_session st) (smtp_session st')
    /\ (smtp_session st <> None -> smtp_session st' = smtp_session st).
Proof.
  run_prims.
  destruct (smtp_session st) as [session|] eqn:Hsession;
    cbn [smtp_session smtp_calls trace];
    destruct message_html as [html|];
    case_smtp E;
    eexists _, _, _;
    (split; [reflexivity|]);
    cbn [trace smtp_session]; rewrite <- ?app_assoc; cbn [app];
    (split; [reflexivity|]);
    (split; [reflexivity|]);
    (split; [reflexivity|]);
    (split; [reflexivity|]);
    congruence.
Qed.

Section LoopEffects.

Variable email_sender : EmailSender.t.
Variable from_email : string.
Variables subject_template html_template : string.
Variable text_template : option string.
Variable delay : Z.
Variable max_emails : option Z.
Variable total_emails : Z.

Lemma transport_is_loop_event (evs : list event) :
  forallb transport_event evs = true -> forallb (loop_event delay) evs = true.
Proof.
  induction evs as [|ev evs IH]; [reflexivity|].
  cbn [forallb]. intros [Hev Hevs]%andb_prop. rewrite (IH Hevs), andb_true_r.
  destruct ev as [[]| | | | | |]; cbn in Hev |- *; congruence.
Qed.

Lemma newly_opened_trans (a b c : option SMTP) :
  (a <> None -> b = a) -> (b <> None -> c = b) ->
  (newly_opened a b + newly_opened b c = newly_opened a c)%nat.
Proof.
  intros Hab Hbc. destruct a, b, c; cbn; try reflexivity;
    try (specialize (Hab ltac:(discriminate)); discriminate);
    try (specialize (Hbc ltac:(discriminate)); discriminate).
Qed.

Lemma pause_effects (i : nat) :
  forallb (loop_event delay) (pause_after delay total_emails i) = true
  /\ count logged_sent (pause_after delay total_emails i) = 0%nat
  /\ count opened (pause_after delay total_emails i) = 0%nat.
Proof.
  unfold pause_after.
  destruct (Z.of_nat i <? total_emails - 1); cbn [andb]; [|now cbn].
  destruct (delay >? 0) eqn:Hdelay; [|now cbn].
  cbn [forallb loop_event]. rewrite Z.eqb_refl.
  replace (0 <? delay) with true by lia. now cbn.
Qed.

Lemma iteration_effects (i : nat) (contact : Contact) (sent failed : nat)
    (E : Env) (st : State) :
  exists (r : result (nat * nat)) (st' : State) (evs : list event),
    iteration email_sender from_email subject_template html_template
      text_template delay total_emails i contact sent failed E st
      = (r, st')
    /\ trace st' = trace st ++ evs
    /\ forallb (loop_event delay) evs = true
    /\ counts_sent sent evs r
    /\ count opened evs = newly_opened (smtp_session st) (smtp_session st')
    /\ (smtp_session st <> None -> smtp_session st' = smtp_session st).
Proof.
  rewrite iteration_unfold.
  destruct (truthy (dict_get contact "email")); cbn [negb].
  - match goal with
    | |- context [EmailSender.send_email ?a ?b ?c ?d ?e ?f] =>
        destruct (send_email_effects a b c d e f E st)
          as (b' & st1 & evs1 & Hrun & Htr & Htrans & Hsent & Hopen & Hkeep)
    end.
    destruct (pause_spec delay total_emails i E st1)
      as (r & st2 & Hpause & Htr2 & Hsession & _ & _).
    destruct (pause_effects i) as (Hev & Hsent0 & Hopen0).
    unfold bind at 1. rewrite Hrun. cbv beta iota.
    unfold bind at 1. rewrite Hpause.
    exists (match r with
            | Ret _ => Ret (if b' then (S sent, failed) else (sent, S failed))
            | Raise e => Raise e
            end), st2.
    eexists. split; [now destruct r|].
    rewrite Htr2, Htr, <- app_assoc, Hsession. cbn [app].
    split; [reflexivity|].
    change (SendEmailCall ?a ?b ?c ?d ?e :: ?l)
      with ([SendEmailCall a b c d e] ++ l).
    rewrite !forallb_app, (transport_is_loop_event _ Htrans), Hev.
    split; [reflexivity|]. split.
    + destruct r; [|exact I]. cbn [counts_sent].
      rewrite !count_app, Hsent, Hsent0. destruct b'; cbn; lia.
    + rewrite !count_app, Hopen, Hopen0. split; [cbn; lia|exact Hkeep].
  - run_prims. eexists (Ret _), _, _.
    split; [reflexivity|]. cbn [trace smtp_session].
    split; [reflexivity|]. split; [reflexivity|].
    split; [cbn; lia|]. split; [now destruct (smtp_session st)|auto].
Qed.

Lemma send_loop_effects (contacts : list Contact) :
  forall (i sent failed : nat) (E : Env) (st : State),
  exists (r : result (nat * nat)) (st' : State) (evs : list event),
    send_loop email_sender from_email subject_template html_template
      text_template delay max_emails total_emails i contacts sent failed E st
      = (r, st')
    /\ trace st' = trace st ++ evs
    /\ forallb (loop_event delay) evs = true
    /\ counts_sent sent evs r
    /\ count opened evs = newly_opened (smtp_session st) (smtp_session st')
    /\ (smtp_session st <> None -> smtp_session st' = smtp_session st).
Proof.
  induction contacts as [|contact rest IH]; intros i sent failed E st.
  - exists (Ret (sent, failed)), st, []. cbn [send_loop]. rewrite app_nil_r.
    repeat split; [cbn; lia|now destruct (smtp_session st)].
  - cbn [send_loop]. destruct (cap_reached max_emails i).
    + exists (Ret (sent, failed)), st, []. rewrite app_nil_r.
      repeat split; [cbn; lia|now destruct (smtp_session st)].
    + destruct (iteration_effects i contact sent failed E st)
        as (r1 & st1 & evs1 & Hrun1 & Htr1 & Hev1 & Hs1 & Ho1 & Hk1).
      unfold bind. rewrite Hrun1.
      destruct r1 as [[s1 f1]|e].
      * destruct (IH (S i) s1 f1 E st1)
          as (r2 & st2 & evs2 & Hrun2 & Htr2 & Hev2 & Hs2 & Ho2 & Hk2).
        exists r2, st2, (evs1 ++ evs2). cbn [fst snd].
        rewrite Hrun2, Htr2, Htr1, app_assoc, forallb_app, Hev1, Hev2.
        rewrite !count_app, Ho1, Ho2.
        rewrite (newly_opened_trans _ _ _ Hk1 Hk2).
        split; [reflexivity|]. split; [reflexivity|].
        split; [reflexivity|]. split.
        { destruct r2 as [[s2 f2]|e2]; [|exact I].
          cbn [counts_sent] in *. rewrite count_app. lia. }
        split; [reflexivity|].
        intros Hset. rewrite Hk2, Hk1; auto. now rewrite Hk1.
      * exists (Raise e), st1, evs1. repeat split; assumption.
Qed.

End LoopEffects.

Lemma count_opening_logs (f : event -> bool) (test_mode : bool)
    (max_emails : option Z) (n : nat) :
  f (Log LogTestMode) = false ->
  (forall t : Z, f (Log (LogStart t)) = false) ->
  count f (opening_logs test_mode max_emails n) = 0%nat.
Proof.
  intros Htest Hstart. unfold opening_logs, count.
  destruct (test_limit_applies _ _); cbn; now rewrite ?Htest, Hstart.
Qed.

(** A run of [send_bulk_emails], with what its events are. *)
Lemma send_bulk_emails_effects (email_sender : EmailSender.t)
    (from_email : string) (contacts : list Contact)
    (subject_template html_template : string) (text_template : option string)
    (delay : Z) (test_mode : bool) (max_emails : option Z) (E : Env)
    (st : State) :
  exists (r : result (nat * nat)) (st' : State) (body : list event),
    send_bulk_emails email_sender from_email contacts subject_template
      html_template text_template delay test_mode max_emails E st
      = (r, st')
    /\ trace st' =
         trace st
           ++ opening_logs test_mode max_emails (length contacts)
           ++ body ++ summary_line r
    /\ forallb (loop_event delay) body = true
    /\ counts_sent 0 body r
    /\ count opened body = newly_opened (smtp_session st) (smtp_session st')
    /\ (smtp_session st <> None -> smtp_session st' = smtp_session st).
Proof.
  unfold send_bulk_emails, opening_logs, effective_max, effective_total.
  set (limited := test_limit_applies test_mode max_emails).
  set (cap := if limited then Some 3 else max_emails).
  set (total := match cap with
                | Some m => Z.min (Z.of_nat (length contacts)) m
                | None => Z.of_nat (length contacts)
                end).
  set (st0 := snd ((if limited then log LogTestMode else ret tt) E st)).
  set (st1 := snd (log (LogStart total) E st0)).
  destruct (send_loop_effects email_sender from_email subject_template
              html_template text_template delay cap total contacts 0 0 0 E st1)
    as (r & st2 & body & Hrun & Htr & Hev & Hsent & Hopen & Hkeep).
  assert (Hst1 : trace st1 =
                   trace st ++ (if limited then [Log LogTestMode] else [])
                     ++ [Log (LogStart total)]).
  { subst st1 st0. destruct limited; run_prims; rewrite <- ?app_assoc;
      try rewrite app_nil_r; reflexivity. }
  assert (Hsession : smtp_session st1 = smtp_session st).
  { subst st1 st0. now destruct limited. }
  rewrite Hsession in Hopen, Hkeep.
  assert (Hsteps : forall k : nat * nat -> M (nat * nat),
             ((if limited then log LogTestMode else ret tt);;
              log (LogStart total);;
              counts <- send_loop email_sender from_email subject_template
                          html_template text_template delay cap total 0
                          contacts 0 0;;
              k counts) E st
             = match r with
               | Ret counts => k counts E st2
               | Raise e => (Raise e, st2)
               end).
  { intros k. unfold bind at 1.
    replace ((if limited then log LogTestMode else ret tt) E st)
      with (Ret tt, st0) by (subst st0; now destruct limited).
    unfold bind at 1. change (log (LogStart total) E st0) with (Ret tt, st1).
    unfold bind at 1. rewrite Hrun. now destruct r. }
  rewrite Hsteps.
  destruct r as [[sent failed]|e].
  - exists (Ret (sent, failed)), (snd (log (LogDone sent failed) E st2)), body.
    split; [reflexivity|].
    split; [run_prims; now rewrite Htr, Hst1, <- !app_assoc|].
    split; [exact Hev|]. split; [exact Hsent|]. split; assumption.
  - exists (Raise e), st2, body.
    split; [reflexivity|].
    split; [cbn [summary_line]; now rewrite Htr, Hst1, app_nil_r, <- !app_assoc|].
    split; [exact Hev|]. split; [exact I|]. split; assumption.
Qed.

Lemma count_loop_events (f : event -> bool) (delay : Z) (evs : list event) :
  (forall ev : event, loop_event delay ev = true -> f ev = false) ->
  forallb (loop_event delay) evs = true -> count f evs = 0%nat.
Proof.
  intros Hf. unfold count.
  induction evs as [|ev evs IH]; [reflexivity|].
  cbn [forallb List.filter]. intros [Hev Hevs]%andb_prop.
  rewrite (Hf ev Hev). exact (IH Hevs).
Qed.

(** ** Pauses and the announced total *)

Lemma count_outline (f : event -> bool) (evs : list event) :
  (forall ev : event, f ev = true -> contact_step ev || is_sleep ev = true) ->
  count f (outline evs) = count f evs.
Proof.
  intros Hf. unfold count, outline.
  induction evs as [|ev evs IH]; [reflexivity|].
  cbn [List.filter].
  destruct (contact_step ev || is_sleep ev) eqn:Hkeep; cbn [List.filter].
  - destruct (f ev); cbn [length]; now rewrite IH.
  - destruct (f ev) eqn:Hfev; [|exact IH].
    rewrite (Hf ev Hfev) in Hkeep. discriminate.
Qed.

Section PlanPauses.

Variable from_email : string.
Variables subject_template html_template : string.
Variable text_template : option string.
Variable delay : Z.
Variable max_emails : option Z.
Variable total_emails : Z.

Local Abbreviation the_plan :=
  (plan from_email subject_template html_template text_template delay
     max_emails total_emails).

Lemma count_sleep_plan_contact (i : nat) (contact : Contact) :
  count is_sleep
    (plan_contact from_email subject_template html_template text_template
       delay total_emails i contact)
  = (if truthy (dict_get contact "email")
     then length (pause_after delay total_emails i)
     else 0)%nat.
Proof.
  unfold plan_contact, expected_step, pause_after, count.
  destruct (truthy (dict_get contact "email")); [|reflexivity].
  now destruct (_ && _).
Qed.

Lemma count_call_plan_contact (i : nat) (contact : Contact) :
  count is_send_call
    (plan_contact from_email subject_template html_template text_template
       delay total_emails i contact)
  = (if truthy (dict_get contact "email") then 1 else 0)%nat.
Proof.
  unfold plan_contact, expected_step, pause_after, count.
  destruct (truthy (dict_get contact "email")); [|reflexivity].
  now destruct (_ && _).
Qed.

Lemma length_pause_after (i : nat) :
  (length (pause_after delay total_emails i) <= 1)%nat
  /\ (Z.of_nat i < total_emails - 1
      \/ length (pause_after delay total_emails i) = 0%nat).
Proof.
  unfold pause_after.
  destruct (Z.of_nat i <? total_emails - 1) eqn:Hlt; cbn [andb];
    [|cbn; lia].
  destruct (delay >? 0); cbn; lia.
Qed.

(** Pauses in the plan: no more than sends, and none from the index
    [total_emails - 1] on. *)
Lemma plan_pauses (contacts : list Contact) :
  forall i : nat,
    (count is_sleep (the_plan i contacts)
     <= count is_send_call (the_plan i contacts))%nat
    /\ Z.of_nat (count is_sleep (the_plan i contacts))
       <= Z.max 0 (total_emails - 1 - Z.of_nat i).
Proof.
  induction contacts as [|contact rest IH]; intros i; [cbn; lia|].
  cbn [plan]. destruct (cap_reached max_emails i); [cbn; lia|].
  rewrite !count_app, count_sleep_plan_contact, count_call_plan_contact.
  destruct (IH (S i)) as [Hle Hbound].
  destruct (length_pause_after i) as [Hone Hpos].
  destruct (truthy (dict_get contact "email")); lia.
Qed.

(** Up to its first pause the plan has the send which that pause
    follows. *)
Lemma until_pause_plan_calls (contacts : list Contact) :
  forall i : nat,
    existsb is_sleep (the_plan i contacts) = true ->
    (1 <= count is_send_call (until_pause (the_plan i contacts)))%nat.
Proof.
  induction contacts as [|contact rest IH]; intros i; [discriminate|].
  cbn [plan]. destruct (cap_reached max_emails i); [discriminate|].
  unfold plan_contact, expected_step.
  destruct (truthy (dict_get contact "email")); cbn [app until_pause is_sleep].
  - intros _. unfold count.
    destruct (until_pause _); cbn [List.filter is_send_call length]; lia.
  - cbn [existsb is_sleep orb]. intros Hrest.
    unfold count. cbn [List.filter is_send_call]. exact (IH (S i) Hrest).
Qed.

End PlanPauses.

Lemma effective_total_cap_bound (n : nat) (test_mode : bool)
    (max_emails : option Z) :
  effective_total n (effective_max test_mode max_emails)
    = cap_bound n test_mode max_emails.
Proof.
  unfold effective_total, effective_max, test_limit_applies, cap_bound.
  destruct test_mode, max_emails as [m|]; cbn [andb];
    try destruct (m >? 3) eqn:Hm; lia.
Qed.

Lemma count_summary_line (f : event -> bool) (r : result (nat * nat)) :
  (forall sent failed : nat, f (Log (LogDone sent failed)) = false) ->
  count f (summary_line r) = 0%nat.
Proof.
  intros Hf. destruct r as [[sent failed]|e]; [|reflexivity].
  unfold count. cbn. now rewrite Hf.
Qed.

(** A run of [send_bulk_emails]: its outcome and its events at once. *)
Lemma send_bulk_emails_full (email_sender : EmailSender.t)
    (from_email : string) (contacts : list Contact)
    (subject_template html_template : string) (text_template : option string)
    (delay : Z) (test_mode : bool) (max_emails : option Z) (E : Env)
    (st : State) :
  exists (r : result (nat * nat)) (st' : State) (body : list event),
    let evs := opening_logs test_mode max_emails (length contacts)
                 ++ body ++ summary_line r in
    send_bulk_emails email_sender from_email contacts subject_template
      html_template text_template delay test_mode max_emails E st
      = (r, st')
    /\ trace st' = trace st ++ evs
    /\ forallb (loop_event delay) body = true
    /\ counts_sent 0 body r
    /\ count opened body = newly_opened (smtp_session st) (smtp_session st')
    /\ (smtp_session st <> None -> smtp_session st' = smtp_session st)
    /\ outline evs =
         followed E delay
           (plan from_email subject_template html_template text_template
              delay (effective_max test_mode max_emails)
              (effective_total (length contacts)
                 (effective_max test_mode max_emails))
              0 contacts)
    /\ Z.of_nat (length (handled evs))
       <= Z.max 0 (cap_bound (length contacts) test_mode max_emails)
    /\ match r with
       | Ret (sent, failed) =>
           outline evs =
             plan from_email subject_template html_template text_template
               delay (effective_max test_mode max_emails)
               (effective_total (length contacts)
                  (effective_max test_mode max_emails))
               0 contacts
           /\ Z.of_nat (length (handled evs))
              = Z.max 0 (cap_bound (length contacts) test_mode max_emails)
           /\ (sent + failed = length (handled evs))%nat
       | Raise e =>
           sleep_outcome E delay = Some e
           /\ pauses_return E delay = false
           /\ 0 < delay
           /\ last evs = Some (Sleep delay)
           /\ existsb is_sleep
                (plan from_email subject_template html_template
                   text_template delay (effective_max test_mode max_emails)
                   (effective_total (length contacts)
                      (effective_max test_mode max_emails))
                   0 contacts) = true
       end
    /\ (pauses_return E delay = true ->
        exists sent failed : nat, r = Ret (sent, failed)).
Proof.
  destruct (send_bulk_emails_effects email_sender from_email contacts
              subject_template html_template text_template delay test_mode
              max_emails E st)
    as (r & st' & body & Hrun & Htr & Hev & Hsent & Hopen & Hkeep).
  destruct (send_bulk_emails_outcome email_sender from_email contacts
              subject_template html_template text_template delay test_mode
              max_emails E st)
    as (r' & st'' & evs & Hrun' & Htr' & _ & Hout & _ & Hbound & Hr & Hret
        & Hpause).
  rewrite Hrun in Hrun'. injection Hrun' as <- <-.
  rewrite Htr in Htr'. apply app_inv_head in Htr'. subst evs.
  exists r, st', body. cbv zeta.
  split; [exact Hrun|]. split; [exact Htr|]. split; [exact Hev|].
  split; [exact Hsent|]. split; [exact Hopen|]. split; [exact Hkeep|].
  split; [exact Hout|]. split; [exact Hbound|]. split; [|exact Hret].
  destruct r as [[sent failed]|e]; tauto.
Qed.

(** X4. A run of [send_bulk_emails] opens at most one connection,
    whether it returns or is cut short by a pause that raises: one
    exactly when it starts without a session and ends with one, and none
    when the sender already has a session, which it then keeps. *)
Theorem connection_opened_at_most_once (email_sender : EmailSender.t)
    (from_email : string) (contacts : list Contact)
    (subject_template html_template : string) (text_template : option string)
    (delay : Z) (test_mode : bool) (max_emails : option Z) (E : Env)
    (st : State) :
  exists (r : result (nat * nat)) (st' : State) (evs : list event),
    send_bulk_emails email_sender from_email contacts subject_template
      html_template text_template delay test_mode max_emails E st
      = (r, st')
    /\ trace st' = trace st ++ evs
    /\ (count opened evs <= 1)%nat
    /\ count opened evs = newly_opened (smtp_session st) (smtp_session st')
    /\ (smtp_session st <> None ->
        smtp_session st' = smtp_session st /\ count opened evs = 0%nat).
Proof.
  destruct (send_bulk_emails_full email_sender from_email contacts
              subject_template html_template text_template delay test_mode
              max_emails E st)
    as (r & st' & body & Hrun & Htr & _ & _ & Hopen & Hkeep & _).
  exists r, st', (opening_logs test_mode max_emails (length contacts)
                    ++ body ++ summary_line r).
  split; [exact Hrun|]. split; [exact Htr|].
  assert (Hcount : count opened
                     (opening_logs test_mode max_emails (length contacts)
                        ++ body ++ summary_line r)
                   = newly_opened (smtp_session st) (smtp_session st')).
  { rewrite !count_app, count_opening_logs, count_summary_line, Hopen
      by reflexivity.
    lia. }
  rewrite Hcount.
  split; [destruct (smtp_session st), (smtp_session st'); cbn; lia|].
  split; [reflexivity|].
  intros Hset. rewrite (Hkeep Hset). split; [reflexivity|].
  now destruct (smtp_session st).
Qed.

Lemma connection_opened_at_most_once_witness :
  exists (r : result (nat * nat)) (st' : State) (evs : list event),
    send_bulk_emails sample_sender "me@example.org" [ann; bob] "Hello $name"
      "<p>Hello $name</p>" None 5 false None smtp_up
      {| smtp_session := Some (SMTP_session "smtp.example.org" 587);
         smtp_calls := 4;
         trace := [] |} = (r, st')
    /\ trace st' = evs
    /\ count opened evs = 0%nat.
Proof.
  destruct (connection_opened_at_most_once sample_sender "me@example.org"
              [ann; bob] "Hello $name" "<p>Hello $name</p>" None 5 false None
              smtp_up
              {| smtp_session := Some (SMTP_session "smtp.example.org" 587);
                 smtp_calls := 4;
                 trace := [] |})
    as (r & st' & evs & Hrun & Htr & _ & _ & Hkeep).
  exists r, st', evs. split; [exact Hrun|]. split; [exact Htr|].
  apply Hkeep. discriminate.
Defined.

(** X5. The tally agrees with the log.  When a run returns, the number
    of emails counted as sent is the number of "Email envoye" lines of
    the run, every other contact handled is counted as failed, and the
    last line of the run is its one summary, with the two counters that
    are returned.  A run that a pause cuts short logs no summary: its
    last event is that pause.  A run whose pauses return returns. *)
Theorem tally_agrees_with_log (email_sender : EmailSender.t)
    (from_email : string) (contacts : list Contact)
    (subject_template html_template : string) (text_template : option string)
    (delay : Z) (test_mode : bool) (max_emails : option Z) (E : Env)
    (st : State) :
  exists (r : result (nat * nat)) (st' : State) (evs : list event),
    send_bulk_emails email_sender from_email contacts subject_template
      html_template text_template delay test_mode max_emails E st
      = (r, st')
    /\ trace st' = trace st ++ evs
    /\ match r with
       | Ret (sent, failed) =>
           sent = count logged_sent evs
           /\ failed = (length (handled evs) - count logged_sent evs)%nat
           /\ last evs = Some (Log (LogDone sent failed))
           /\ count is_summary_log evs = 1%nat
       | Raise e =>
           sleep_outcome E delay = Some e
           /\ last evs = Some (Sleep delay)
           /\ count is_summary_log evs = 0%nat
       end
    /\ (pauses_return E delay = true ->
        exists sent failed : nat, r = Ret (sent, failed)).
Proof.
  destruct (send_bulk_emails_full email_sender from_email contacts
              subject_template html_template text_template delay test_mode
              max_emails E st)
    as (r & st' & body & Hrun & Htr & Hev & Hsent & _ & _ & _ & _ & Hr
        & Hret).
  exists r, st', (opening_logs test_mode max_emails (length contacts)
                    ++ body ++ summary_line r).
  split; [exact Hrun|]. split; [exact Htr|]. split; [|exact Hret].
  assert (Hsummary : count is_summary_log
                       (opening_logs test_mode max_emails (length contacts)
                          ++ body)
                     = 0%nat).
  { rewrite count_app, count_opening_logs by reflexivity.
    apply (count_loop_events is_summary_log delay); [|exact Hev].
    intros [[]| | | | | |]; cbn; congruence. }
  rewrite app_assoc in *. rewrite (count_app is_summary_log), Hsummary.
  destruct r as [[sent failed]|e].
  - destruct Hr as (_ & _ & Hsum). cbn [counts_sent] in Hsent.
    assert (Hcount : count logged_sent
                       ((opening_logs test_mode max_emails (length contacts)
                           ++ body) ++ summary_line (Ret (sent, failed)))
                     = sent).
    { rewrite !count_app, count_opening_logs, count_summary_line
        by reflexivity.
      lia. }
    rewrite Hcount. split; [reflexivity|]. split; [lia|].
    split; [apply last_snoc|reflexivity].
  - destruct Hr as (Hsleep & _ & _ & Hlast & _).
    split; [exact Hsleep|]. split; [exact Hlast|reflexivity].
Qed.

Lemma tally_agrees_with_log_witness :
  exists (sent failed : nat) (st' : State),
    send_bulk_emails sample_sender "me@example.org" [ann; no_address; bob]
      "Hello $name" "<p>Hello $name</p>" None 5 false None smtp_up
      initial_state = (Ret (sent, failed), st')
    /\ sent = count logged_sent (trace st')
    /\ last (trace st') = Some (Log (LogDone sent failed)).
Proof.
  destruct (tally_agrees_with_log sample_sender "me@example.org"
              [ann; no_address; bob] "Hello $name" "<p>Hello $name</p>" None
              5 false None smtp_up initial_state)
    as (r & st' & evs & Hrun & Htr & Hr & Hreturns).
  destruct (Hreturns eq_refl) as (sent & failed & ->).
  exists sent, failed, st'. rewrite Htr. cbn [initial_state trace app].
  split; [exact Hrun|]. tauto.
Defined.

(** X6. Pauses of a run of [send_bulk_emails]: every pause lasts [delay]
    seconds and there is none unless [delay] is positive; there are no
    more pauses than calls of [send_email].  A run that returns has
    fewer pauses than contacts handled; a run that a pause cuts short
    has that one pause, its last event. *)
Theorem pauses_of_a_run (email_sender : EmailSender.t)
    (from_email : string) (contacts : list Contact)
    (subject_template html_template : string) (text_template : option string)
    (delay : Z) (test_mode : bool) (max_emails : option Z) (E : Env)
    (st : State) :
  exists (r : result (nat * nat)) (st' : State) (evs : list event),
    send_bulk_emails email_sender from_email contacts subject_template
      html_template text_template delay test_mode max_emails E st
      = (r, st')
    /\ trace st' = trace st ++ evs
    /\ (forall d : Z, In (Sleep d) evs -> d = delay /\ 0 < delay)
    /\ (delay <= 0 ->
        count is_sleep evs = 0%nat
        /\ exists sent failed : nat, r = Ret (sent, failed))
    /\ (count is_sleep evs <= count is_send_call evs)%nat
    /\ match r with
       | Ret _ =>
           Z.of_nat (count is_sleep evs)
           <= Z.max 0 (Z.of_nat (length (handled evs)) - 1)
       | Raise e =>
           sleep_outcome E delay = Some e
           /\ count is_sleep evs = 1%nat
           /\ last evs = Some (Sleep delay)
       end.
Proof.
  destruct (send_bulk_emails_full email_sender from_email contacts
              subject_template html_template text_template delay test_mode
              max_emails E st)
    as (r & st' & body & Hrun & Htr & Hev & _ & _ & _ & Hout & _ & Hr
        & Hret).
  set (evs := opening_logs test_mode max_emails (length contacts)
                ++ body ++ summary_line r) in *.
  exists r, st', evs.
  split; [exact Hrun|]. split; [exact Htr|].
  assert (Hsleep : forall d : Z, In (Sleep d) evs -> d = delay /\ 0 < delay).
  { intros d Hin. subst evs.
    apply in_app_or in Hin as [Hin|Hin].
    { unfold opening_logs in Hin. destruct (test_limit_applies _ _);
        cbn in Hin; intuition discriminate. }
    apply in_app_or in Hin as [Hin|Hin].
    2: { destruct r as [[]|]; cbn in Hin; intuition discriminate. }
    rewrite forallb_forall in Hev. specialize (Hev _ Hin).
    cbn in Hev. apply andb_prop in Hev as [Heq Hpos]. lia. }
  assert (Hsleeps : count is_sleep (outline evs) = count is_sleep evs)
    by (apply count_outline; intros [[]| | | | | |]; cbn; congruence).
  assert (Hcalls : count is_send_call (outline evs) = count is_send_call evs)
    by (apply count_outline; intros [[]| | | | | |]; cbn; congruence).
  destruct (plan_pauses from_email subject_template html_template
              text_template delay (effective_max test_mode max_emails)
              (effective_total (length contacts)
                 (effective_max test_mode max_emails)) contacts 0)
    as [Hle Hbound].
  split; [exact Hsleep|].
  split.
  { intros Hdelay. split.
    - unfold count.
      destruct (List.filter is_sleep evs) as [|ev l] eqn:Hfilter;
        [reflexivity|].
      assert (Hin : In ev (List.filter is_sleep evs))
        by (rewrite Hfilter; now left).
      apply List.filter_In in Hin as [Hin Hs].
      destruct ev; try discriminate. destruct (Hsleep _ Hin). lia.
    - apply Hret. unfold pauses_return.
      replace (delay <=? 0) with true by lia. reflexivity. }
  destruct r as [[sent failed]|e].
  - destruct Hr as (Hplan & Hhandled & _).
    rewrite <- Hplan, Hsleeps, Hcalls in Hle.
    rewrite <- Hplan, Hsleeps, effective_total_cap_bound in Hbound.
    split; [exact Hle|]. lia.
  - destruct Hr as (Hsleep_raises & Hp & _ & Hlast & Hpause).
    assert (Hone : count is_sleep evs = 1%nat).
    { rewrite <- Hsleeps, Hout. unfold followed. rewrite Hp.
      now apply one_pause_until_pause. }
    split; [|auto].
    rewrite Hone, <- Hcalls, Hout. unfold followed. rewrite Hp.
    now apply until_pause_plan_calls.
Qed.

Lemma pauses_of_a_run_witness :
  exists (sent failed : nat) (st' : State),
    send_bulk_emails sample_sender "me@example.org" [ann; bob; ann]
      "Hello $name" "<p>Hello $name</p>" None 0 false None smtp_up
      initial_state = (Ret (sent, failed), st')
    /\ count is_sleep (trace st') = 0%nat.
Proof.
  destruct (pauses_of_a_run sample_sender "me@example.org" [ann; bob; ann]
              "Hello $name" "<p>Hello $name</p>" None 0 false None smtp_up
              initial_state)
    as (r & st' & evs & Hrun & Htr & _ & Hnone & _).
  destruct (Hnone ltac:(lia)) as (Hzero & sent & failed & ->).
  exists sent, failed, st'. split; [exact Hrun|].
  rewrite Htr. cbn [initial_state trace app]. exact Hzero.
Defined.

(** X7. The start line of [send_bulk_emails] announces
    [min N max_emails 3] ([max_emails] when given, 3 in test mode), once.
    No more contacts are handled than it announces, none at all when it
    announces a negative number (a negative [max_emails]); a run that
    returns, as every run whose pauses return does, has handled exactly
    that number of contacts. *)
Theorem announced_total (email_sender : EmailSender.t)
    (from_email : string) (contacts : list Contact)
    (subject_template html_template : string) (text_template : option string)
    (delay : Z) (test_mode : bool) (max_emails : option Z) (E : Env)
    (st : State) :
  exists (r : result (nat * nat)) (st' : State) (evs : list event),
    send_bulk_emails email_sender from_email contacts subject_template
      html_template text_template delay test_mode max_emails E st
      = (r, st')
    /\ trace st' = trace st ++ evs
    /\ List.filter is_start_log evs =
         [Log (LogStart (cap_bound (length contacts) test_mode max_emails))]
    /\ Z.of_nat (length (handled evs)) <=
         Z.max 0 (cap_bound (length contacts) test_mode max_emails)
    /\ (forall counts : nat * nat,
        r = Ret counts ->
        Z.of_nat (length (handled evs)) =
          Z.max 0 (cap_bound (length contacts) test_mode max_emails))
    /\ (pauses_return E delay = true ->
        exists sent failed : nat, r = Ret (sent, failed)).
Proof.
  destruct (send_bulk_emails_full email_sender from_email contacts
              subject_template html_template text_template delay test_mode
              max_emails E st)
    as (r & st' & body & Hrun & Htr & Hev & _ & _ & _ & _ & Hbound & Hr
        & Hret).
  exists r, st', (opening_logs test_mode max_emails (length contacts)
                    ++ body ++ summary_line r).
  split; [exact Hrun|]. split; [exact Htr|].
  split; [|split; [exact Hbound|split; [|exact Hret]]].
  - rewrite !List.filter_app.
    assert (Hbody : List.filter is_start_log body = []).
    { apply length_zero_iff_nil.
      apply (count_loop_events is_start_log delay); [|exact Hev].
      intros [[]| | | | | |]; cbn; congruence. }
    assert (Hsummary : List.filter is_start_log (summary_line r) = [])
      by now destruct r as [[]|].
    rewrite Hbody, Hsummary. unfold opening_logs.
    rewrite effective_total_cap_bound.
    now destruct (test_limit_applies _ _).
  - intros [sent failed] ->. apply Hr.
Qed.

Lemma announced_total_witness :
  exists (sent failed : nat) (st' : State),
    send_bulk_emails sample_sender "me@example.org" [ann; bob; ann]
      "Hello $name" "<p>Hello $name</p>" None 5 false (Some 2) smtp_up
      initial_state = (Ret (sent, failed), st')
    /\ List.filter is_start_log (trace st') = [Log (LogStart 2)]
    /\ length (handled (trace st')) = 2%nat.
Proof.
  destruct (announced_total sample_sender "me@example.org" [ann; bob; ann]
              "Hello $name" "<p>Hello $name</p>" None 5 false (Some 2)
              smtp_up initial_state)
    as (r & st' & evs & Hrun & Htr & Hstart & _ & Hexact & Hreturns).
  destruct (Hreturns eq_refl) as (sent & failed & ->).
  exists sent, failed, st'. rewrite Htr. cbn [initial_state trace app].
  split; [exact Hrun|]. split; [exact Hstart|].
  specialize (Hexact _ eq_refl). cbn in Hexact. lia.
Defined.

(** ** The phases of [main] *)

Lemma load_text_template_value (args : Args) (E : Env) (st : State) :
  exists (st' : State) (evs : list event),
    load_text_template args E st = (Ret (loaded_text E args), st')
    /\ trace st' = trace st ++ evs
    /\ smtp_calls st' = smtp_calls st
    /\ forallb load_event evs = true.
Proof.
  unfold load_text_template, loaded_text.
  destruct (arg_text_template args) as [path|]; [destruct (nonempty path)|].
  - rewrite load_template_spec.
    destruct (read_text E path); eexists _, _;
      (split; [reflexivity|]); cbn [record trace smtp_calls];
      rewrite <- ?app_assoc; repeat split; reflexivity.
  - exists st, []. now rewrite app_nil_r.
  - exists st, []. now rewrite app_nil_r.
Qed.

Lemma load_contacts_value (args : Args) (E : Env) (st : State) :
  exists (st' : State) (evs : list event),
    load_contacts args E st = (Ret (loaded_rows E args), st')
    /\ trace st' = trace st ++ evs
    /\ smtp_calls st' = smtp_calls st
    /\ forallb load_event evs = true.
Proof.
  unfold load_contacts, loaded_rows, source_rows.
  destruct (arg_source args).
  - rewrite get_contacts_from_csv_spec.
    destruct (read_csv E (arg_source_file args)); eexists _, _;
      (split; [reflexivity|]); cbn [record trace smtp_calls];
      rewrite <- ?app_assoc; repeat split; reflexivity.
  - rewrite get_contacts_from_sqlite_spec. cbv zeta.
    destruct (run_query E (arg_source_file args) _); eexists _, _;
      (split; [reflexivity|]); cbn [record trace smtp_calls];
      rewrite <- ?app_assoc; repeat split; reflexivity.
Qed.

(** The end of [main]: the bulk send from a sender without session,
    then [disconnect], whatever the outcome of the bulk send. *)
Lemma send_all_run (args : Args) (content : string)
    (text_template : option string) (contacts : list Contact) (E : Env)
    (st : State) :
  exists (r : result (nat * nat)) (st1 : State),
    send_bulk_emails (sender_of args) (arg_from_email args) contacts
      (arg_subject args) content text_template (arg_delay args)
      (arg_test args) (arg_max_emails args) E (with_new_sender st)
      = (r, st1)
    /\ snd (send_all args content text_template contacts E st)
       = snd (EmailSender.disconnect (sender_of args) E st1)
    /\ fst (send_all args content text_template contacts E st)
       = match fst (EmailSender.disconnect (sender_of args) E st1) with
         | Ret _ => match r with Ret _ => Ret tt | Raise e => Raise e end
         | Raise e => Raise e
         end.
Proof.
  destruct (send_bulk_emails (sender_of args) (arg_from_email args) contacts
              (arg_subject args) content text_template (arg_delay args)
              (arg_test args) (arg_max_emails args) E (with_new_sender st))
    as [r st1] eqn:Hrun.
  exists r, st1. split; [reflexivity|].
  assert (Hall : send_all args content text_template contacts E st
                 = (match fst (EmailSender.disconnect (sender_of args) E st1)
                    with
                    | Ret _ =>
                        match r with Ret _ => Ret tt | Raise e => Raise e end
                    | Raise e => Raise e
                    end,
                    snd (EmailSender.disconnect (sender_of args) E st1))).
  { unfold send_all, bind at 1, set_session. cbv zeta.
    change {| smtp_session := None; smtp_calls := smtp_calls st;
              trace := trace st |} with (with_new_sender st).
    unfold try_finally, bind. rewrite Hrun. unfold ret.
    destruct r as [[sent failed]|e];
      destruct (EmailSender.disconnect (sender_of args) E st1)
        as [[[]|e'] st2];
      reflexivity. }
  rewrite Hall. split; reflexivity.
Qed.

Lemma load_is_prelude (evs : list event) :
  forallb load_event evs = true -> forallb prelude_event evs = true.
Proof.
  induction evs as [|ev l IH]; [reflexivity|].
  cbn [forallb]. intros [Hev Hl]%andb_prop. rewrite (IH Hl), andb_true_r.
  destruct ev as [[]| | | | | |]; cbn in Hev |- *; congruence.
Qed.

(** The run of [main], phase by phase: loading, then (with a usable
    HTML template and at least one contact) the bulk send from a sender
    without session, then [disconnect], also when the bulk send raised. *)
Lemma main_phases (args : Args) (E : Env) (st : State) :
  exists (loads bulk closing : list event),
    trace (snd (main args E st)) = trace st ++ loads ++ bulk ++ closing
    /\ forallb prelude_event loads = true
    /\ match loaded_html E args, loaded_rows E args with
       | Some content, row :: rows =>
           exists (st0 : State) (r : result (nat * nat)) (st1 : State),
             smtp_session st0 = None
             /\ trace st0 = trace st ++ loads
             /\ send_bulk_emails (sender_of args) (arg_from_email args)
                  (row :: rows) (arg_subject args) content
                  (loaded_text E args) (arg_delay args) (arg_test args)
                  (arg_max_emails args) E st0 = (r, st1)
             /\ trace st1 = trace st0 ++ bulk
             /\ closing = closing_events E st1
             /\ snd (main args E st)
                = snd (EmailSender.disconnect (sender_of args) E st1)
             /\ fst (main args E st)
                = match fst (EmailSender.disconnect (sender_of args) E st1)
                  with
                  | Ret _ =>
                      match r with Ret _ => Ret tt | Raise e => Raise e end
                  | Raise e => Raise e
                  end
       | _, _ =>
           bulk = [] /\ closing = [] /\ fst (main args E st) = Ret tt
       end.
Proof.
  rewrite main_unfold. unfold loaded_html.
  destruct (read_text E (arg_template args)) as [content|];
    [destruct (nonempty content)|].
  - unfold main_with_template, bind.
    destruct (load_text_template_value args E
                (record (OpenText (arg_template args)) st))
      as (st1 & evs1 & -> & Htr1 & _ & Hload1).
    destruct (load_contacts_value args E st1)
      as (st2 & evs2 & -> & Htr2 & _ & Hload2).
    cbn [record trace] in Htr1.
    apply load_is_prelude in Hload1, Hload2.
    destruct (loaded_rows E args) as [|row rows].
    + exists (OpenText (arg_template args) :: evs1 ++ evs2
                ++ [Log LogNoContacts]), [], [].
      cbn [snd fst log emit record trace].
      rewrite Htr2, Htr1, <- !app_assoc, !app_nil_r. cbn [app].
      split; [reflexivity|]. split; [|auto].
      cbn [forallb]. rewrite !forallb_app, Hload1, Hload2. reflexivity.
    + destruct (send_all_run args content (loaded_text E args) (row :: rows)
                  E st2)
        as (r & st3 & Hbulk & Hstate & Hresult).
      destruct (send_bulk_emails_spec (sender_of args) (arg_from_email args)
                  (row :: rows) (arg_subject args) content
                  (loaded_text E args) (arg_delay args) (arg_test args)
                  (arg_max_emails args) E (with_new_sender st2))
        as (r' & st3' & body & Hbulk' & Htr3 & _).
      rewrite Hbulk in Hbulk'. injection Hbulk' as <- <-.
      exists (OpenText (arg_template args) :: evs1 ++ evs2),
        (opening_logs (arg_test args) (arg_max_emails args)
           (length (row :: rows))
           ++ body ++ summary_line r),
        (closing_events E st3).
      assert (Hst2 : trace (with_new_sender st2)
                     = trace st ++ OpenText (arg_template args)
                         :: evs1 ++ evs2).
      { cbn [with_new_sender trace]. rewrite Htr2, Htr1, <- !app_assoc.
        reflexivity. }
      split.
      { rewrite Hstate.
        rewrite (proj1 (disconnect_spec (sender_of args) E st3)), Htr3, Hst2.
        rewrite <- !app_assoc. reflexivity. }
      split.
      { cbn [forallb]. rewrite forallb_app, Hload1, Hload2. reflexivity. }
      exists (with_new_sender st2), r, st3.
      split; [reflexivity|]. split; [exact Hst2|].
      split; [exact Hbulk|]. split; [exact Htr3|]. split; [reflexivity|].
      split; [exact Hstate|exact Hresult].
  - exists [OpenText (arg_template args); Log LogNoHtmlTemplate], [], [].
    cbn [snd fst record trace]. rewrite <- !app_assoc.
    split; [reflexivity|]. split; [reflexivity|].
    split; [reflexivity|]. split; reflexivity.
  - exists [OpenText (arg_template args);
            Log (LogTemplateError (OSError (arg_template args)));
            Log LogNoHtmlTemplate], [], [].
    cbn [snd fst record trace]. rewrite <- !app_assoc.
    split; [reflexivity|]. split; [reflexivity|].
    split; [reflexivity|]. split; reflexivity.
Qed.

(** ** Contacts without address *)

Lemma send_loop_no_address (email_sender : EmailSender.t) (from_email : string)
    (subject_template html_template : string) (text_template : option string)
    (delay : Z) (max_emails : option Z) (total_emails : Z)
    (contacts : list Contact) :
  Forall (fun c => truthy (dict_get c "email") = false) contacts ->
  forall (i sent failed : nat) (E : Env) (st : State),
  exists st' : State,
    send_loop email_sender from_email subject_template html_template
      text_template delay max_emails total_emails i contacts sent failed E st
      = (Ret (sent, (failed + iterations max_emails i (length contacts))%nat),
         st')
    /\ smtp_session st' = smtp_session st
    /\ smtp_calls st' = smtp_calls st
    /\ trace st' =
         trace st
           ++ warnings i
                (take (iterations max_emails i (length contacts)) contacts).
Proof.
  induction 1 as [|contact rest Hc Hrest IH]; intros i sent failed E st.
  - exists st. cbn [send_loop length]. rewrite take_nil, app_nil_r.
    replace (iterations max_emails i 0) with 0%nat
      by (unfold iterations; destruct max_emails; lia).
    rewrite Nat.add_0_r. now unfold ret.
  - cbn [send_loop length]. destruct (cap_reached max_emails i) eqn:Hcap.
    + exists st. rewrite iterations_stop by exact Hcap.
      cbn [take warnings]. rewrite app_nil_r, Nat.add_0_r. now unfold ret.
    + rewrite iterations_step by exact Hcap.
      unfold bind at 1. rewrite iteration_unfold, Hc. cbn [negb].
      run_prims.
      destruct (IH (S i) sent (S failed) E
                  {| smtp_session := smtp_session st;
                     smtp_calls := smtp_calls st;
                     trace := trace st ++ [Log (LogNoEmail (S i))] |})
        as (st' & Hrun & Hsession & Hcalls & Htr).
      exists st'. rewrite Hrun, Hsession, Hcalls, Htr.
      cbn [smtp_session smtp_calls trace take warnings].
      rewrite <- app_assoc.
      replace (S failed + iterations max_emails (S i) (length rest))%nat
        with (failed + S (iterations max_emails (S i) (length rest)))%nat
        by lia.
      repeat split.
Qed.

(** A run over contacts none of which has an address. *)
Lemma no_address_no_transport_run (email_sender : EmailSender.t)
    (from_email : string) (contacts : list Contact)
    (subject_template html_template : string) (text_template : option string)
    (delay : Z) (test_mode : bool) (max_emails : option Z) (E : Env)
    (st : State) :
  Forall (fun c => truthy (dict_get c "email") = false) contacts ->
  let handled_count :=
    iterations (effective_max test_mode max_emails) 0 (length contacts) in
  exists st' : State,
    send_bulk_emails email_sender from_email contacts subject_template
      html_template text_template delay test_mode max_emails E st
      = (Ret (0%nat, handled_count), st')
    /\ smtp_session st' = smtp_session st
    /\ smtp_calls st' = smtp_calls st
    /\ trace st' =
         trace st
           ++ opening_logs test_mode max_emails (length contacts)
           ++ warnings 0 (take handled_count contacts)
           ++ [Log (LogDone 0 handled_count)].
Proof.
  intros Hnone. cbv zeta.
  unfold send_bulk_emails, opening_logs, effective_max, effective_total.
  set (limited := test_limit_applies test_mode max_emails).
  set (cap := if limited then Some 3 else max_emails).
  set (total := match cap with
                | Some m => Z.min (Z.of_nat (length contacts)) m
                | None => Z.of_nat (length contacts)
                end).
  set (st0 := snd ((if limited then log LogTestMode else ret tt) E st)).
  set (st1 := snd (log (LogStart total) E st0)).
  destruct (send_loop_no_address email_sender from_email subject_template
              html_template text_template delay cap total contacts Hnone
              0 0 0 E st1)
    as (st2 & Hrun & Hsession & Hcalls & Htr).
  exists (snd (log (LogDone 0 (iterations cap 0 (length contacts))) E st2)).
  assert (Hst1 : trace st1 =
                   trace st ++ (if limited then [Log LogTestMode] else [])
                     ++ [Log (LogStart total)]
                 /\ smtp_session st1 = smtp_session st
                 /\ smtp_calls st1 = smtp_calls st).
  { subst st1 st0. destruct limited; run_prims; rewrite <- ?app_assoc;
      try rewrite app_nil_r; auto. }
  destruct Hst1 as (Htr1 & Hsession1 & Hcalls1).
  split; [|split; [|split]].
  - unfold bind at 1.
    replace ((if limited then log LogTestMode else ret tt) E st)
      with (Ret tt, st0) by (subst st0; now destruct limited).
    unfold bind at 1. change (log (LogStart total) E st0) with (Ret tt, st1).
    unfold bind at 1. rewrite Hrun. reflexivity.
  - run_prims. congruence.
  - run_prims. congruence.
  - run_prims. rewrite Htr, Htr1, <- !app_assoc. reflexivity.
Qed.

Lemma existsb_warnings (i : nat) (contacts : list Contact) :
  existsb send_event (warnings i contacts) = false.
Proof.
  revert i. induction contacts as [|c l IH]; intros i; [reflexivity|].
  cbn [warnings existsb send_event orb]. apply IH.
Qed.

(** X8. When none of the contacts has an address, [send_bulk_emails]
    counts every contact it handles as failed and none as sent, logs one
    warning per contact handled, numbered from 1, and leaves the
    transport alone: no call of [send_email], no SMTP operation, no
    pause, the session as it was. *)
Theorem no_address_no_transport (email_sender : EmailSender.t)
    (from_email : string) (contacts : list Contact)
    (subject_template html_template : string) (text_template : option string)
    (delay : Z) (test_mode : bool) (max_emails : option Z) (E : Env)
    (st : State) :
  Forall (fun c => truthy (dict_get c "email") = false) contacts ->
  let handled_count :=
    iterations (effective_max test_mode max_emails) 0 (length contacts) in
  exists st' : State,
    send_bulk_emails email_sender from_email contacts subject_template
      html_template text_template delay test_mode max_emails E st
      = (Ret (0%nat, handled_count), st')
    /\ smtp_session st' = smtp_session st
    /\ smtp_calls st' = smtp_calls st
    /\ trace st' =
         trace st
           ++ opening_logs test_mode max_emails (length contacts)
           ++ warnings 0 (take handled_count contacts)
           ++ [Log (LogDone 0 handled_count)].
Proof.
  exact (no_address_no_transport_run email_sender from_email contacts
           subject_template html_template text_template delay test_mode
           max_emails E st).
Qed.

Lemma no_address_no_transport_witness :
  exists st' : State,
    send_bulk_emails sample_sender "me@example.org"
      [no_address; no_address; no_address] "Hello $name" "<p>Hello</p>"
      None 5 false (Some 2) smtp_up initial_state
      = (Ret (0%nat, 2%nat), st')
    /\ trace st' =
         [Log (LogStart 2); Log (LogNoEmail 1); Log (LogNoEmail 2);
          Log (LogDone 0 2)].
Proof.
  destruct (no_address_no_transport sample_sender "me@example.org"
              [no_address; no_address; no_address] "Hello $name"
              "<p>Hello</p>" None 5 false (Some 2) smtp_up initial_state)
    as (st' & Hrun & _ & _ & Htr).
  { repeat constructor. }
  exists st'. split; [exact Hrun|]. rewrite Htr. reflexivity.
Defined.

(** ** Properties of whole runs of [main] *)

Lemma filter_prelude (f : event -> bool) (evs : list event) :
  (forall ev : event, prelude_event ev = true -> f ev = false) ->
  forallb prelude_event evs = true -> List.filter f evs = [].
Proof.
  intros Hf. induction evs as [|ev l IH]; [reflexivity|].
  cbn [forallb List.filter]. intros [Hev Hl]%andb_prop.
  now rewrite (Hf ev Hev), (IH Hl).
Qed.

Lemma filter_closing (f : event -> bool) (E : Env) (st : State) :
  (forall ok : bool, f (Smtp SMTP_quit ok) = false) ->
  f (Log LogSmtpDisconnected) = false ->
  List.filter f (closing_events E st) = [].
Proof.
  intros Hquit Hlog. unfold closing_events.
  destruct (smtp_session st); [|reflexivity].
  cbn [List.filter]. rewrite Hquit.
  destruct (smtp_ok E (smtp_calls st)); cbn [List.filter]; now rewrite ?Hlog.
Qed.

Lemma In_imap {A B : Type} (f : nat -> A -> B) (l : list A) (y : B) :
  In y (imap f l) -> exists (j : nat) (x : A), y = f j x /\ In x l.
Proof.
  revert f. induction l as [|x l IH]; intros f Hin; [destruct Hin|].
  cbn [imap] in Hin. destruct Hin as [<-|Hin].
  - exists 0%nat, x. split; [reflexivity|now left].
  - destruct (IH _ Hin) as (j & x' & -> & Hx).
    exists (S j), x'. split; [reflexivity|now right].
Qed.

(** The steps of a run of [main] whose HTML template is usable: the
    first of the steps planned, all of them when the bulk send
    returned. *)
Lemma main_handled_steps (args : Args) (E : Env) (st : State)
    (content : string) :
  loaded_html E args = Some content ->
  exists evs : list event,
    trace (snd (main args E st)) = trace st ++ evs
    /\ handled evs `prefix_of`
         imap (expected_step (arg_from_email args) (arg_subject args) content
                 (loaded_text E args))
           (take (iterations
                    (effective_max (arg_test args) (arg_max_emails args)) 0
                    (length (loaded_rows E args)))
              (loaded_rows E args))
    /\ (pauses_return E (arg_delay args) = true
        \/ fst (main args E st) = Ret tt ->
        handled evs =
          imap (expected_step (arg_from_email args) (arg_subject args) content
                  (loaded_text E args))
            (take (iterations
                     (effective_max (arg_test args) (arg_max_emails args)) 0
                     (length (loaded_rows E args)))
               (loaded_rows E args))).
Proof.
  intros Hhtml.
  destruct (main_phases args E st) as (loads & bulk & closing & Htr & Hloads & H).
  rewrite Hhtml in H.
  exists (loads ++ bulk ++ closing). split; [exact Htr|].
  assert (Hl : handled loads = []).
  { apply filter_prelude; [|exact Hloads].
    intros [[]| | | | | |]; cbn; congruence. }
  rewrite !handled_app, Hl. cbn [app].
  destruct (loaded_rows E args) as [|row rows].
  - destruct H as (-> & -> & _). now rewrite take_nil.
  - destruct H as (st0 & r & st1 & _ & _ & Hbulk & Htr1 & -> & _ & Hresult).
    destruct (send_bulk_emails_outcome (sender_of args) (arg_from_email args)
                (row :: rows) (arg_subject args) content (loaded_text E args)
                (arg_delay args) (arg_test args) (arg_max_emails args) E st0)
      as (r' & st1' & evs & Hrun & Htr' & _ & _ & Hprefix & _ & Hr & Hret
          & _).
    rewrite Hbulk in Hrun. injection Hrun as <- <-.
    rewrite Htr1 in Htr'. apply app_inv_head in Htr'. subst evs.
    unfold handled at 2 4. rewrite filter_closing by reflexivity.
    rewrite app_nil_r. split; [exact Hprefix|].
    intros Hreturned.
    assert (Hr' : exists sent failed : nat, r = Ret (sent, failed)).
    { destruct Hreturned as [Hp|Hmain]; [exact (Hret Hp)|].
      destruct r as [[sent failed]|e]; [now exists sent, failed|].
      rewrite Hresult in Hmain.
      now destruct (fst (EmailSender.disconnect (sender_of args) E st1)). }
    destruct Hr' as (sent & failed & ->). apply Hr.
Qed.

(** X9. End to end: when the HTML template is usable, the contacts
    [main] handles are the first ones of the source, in the order of the
    source and no more than the cap allows; each is sent the subject of
    the command line and the loaded templates, personalised for it, or
    is warned about when it has no address.  They are as many as the cap
    allows when the pauses of the run return, and whenever [main]
    returns. *)
Theorem main_handles_loaded_contacts (args : Args) (E : Env) (st : State)
    (content : string) :
  loaded_html E args = Some content ->
  exists evs : list event,
    trace (snd (main args E st)) = trace st ++ evs
    /\ handled evs `prefix_of`
         imap (expected_step (arg_from_email args) (arg_subject args) content
                 (loaded_text E args))
           (take (iterations
                    (effective_max (arg_test args) (arg_max_emails args)) 0
                    (length (loaded_rows E args)))
              (loaded_rows E args))
    /\ (pauses_return E (arg_delay args) = true
        \/ fst (main args E st) = Ret tt ->
        handled evs =
          imap (expected_step (arg_from_email args) (arg_subject args) content
                  (loaded_text E args))
            (take (iterations
                     (effective_max (arg_test args) (arg_max_emails args)) 0
                     (length (loaded_rows E args)))
               (loaded_rows E args))).
Proof. exact (main_handled_steps args E st content). Qed.

Lemma main_handles_loaded_contacts_witness :
  exists evs : list event,
    trace (snd (main sample_args starttls_refused initial_state)) = evs
    /\ handled evs =
         [SendEmailCall "me@example.org" (VStr "ann@example.org") "Hello Ann"
            (Some "<p>Hello Ann</p>") None;
          SendEmailCall "me@example.org" (VStr "bob@example.org") "Hello Bob"
            (Some "<p>Hello Bob</p>") None].
Proof.
  destruct (main_handles_loaded_contacts sample_args starttls_refused
              initial_state "<p>Hello $name</p>" eq_refl)
    as (evs & Htr & _ & Hhandled).
  exists evs. split; [exact Htr|]. rewrite Hhandled by (left; reflexivity).
  vm_compute. reflexivity.
Defined.

(** X10. The text template is optional to the end: when its file
    cannot be read or is empty, or when none is named, [main] still
    handles the same contacts (all those the cap allows when the pauses
    of the run return), and every call of [send_email] is made without
    text body. *)
Theorem unreadable_text_template_is_not_fatal (args : Args) (E : Env)
    (st : State) (content : string) :
  loaded_html E args = Some content ->
  loaded_text E args = None \/ loaded_text E args = Some "" ->
  exists evs : list event,
    trace (snd (main args E st)) = trace st ++ evs
    /\ (length (handled evs) <=
        iterations (effective_max (arg_test args) (arg_max_emails args)) 0
          (length (loaded_rows E args)))%nat
    /\ (pauses_return E (arg_delay args) = true ->
        length (handled evs) =
          iterations (effective_max (arg_test args) (arg_max_emails args)) 0
            (length (loaded_rows E args)))
    /\ (forall (f : string) (t : value) (s : string) (h x : option string),
        In (SendEmailCall f t s h x) evs -> x = None).
Proof.
  intros Hhtml Htext.
  destruct (main_handled_steps args E st content Hhtml)
    as (evs & Htr & Hprefix & Hhandled).
  assert (Hlength :
            length (imap (expected_step (arg_from_email args)
                            (arg_subject args) content (loaded_text E args))
                      (take (iterations
                               (effective_max (arg_test args)
                                  (arg_max_emails args)) 0
                               (length (loaded_rows E args)))
                         (loaded_rows E args)))
            = iterations (effective_max (arg_test args) (arg_max_emails args))
                0 (length (loaded_rows E args))).
  { rewrite length_imap, length_take.
    unfold iterations. destruct (effective_max _ _); lia. }
  exists evs. split; [exact Htr|]. split; [|split].
  - apply prefix_length in Hprefix. now rewrite Hlength in Hprefix.
  - intros Hp. now rewrite Hhandled by (now left).
  - intros f t s h x Hin.
    assert (Hin' : In (SendEmailCall f t s h x) (handled evs)).
    { unfold handled. apply List.filter_In. now split. }
    destruct Hprefix as [rest Hsplit].
    assert (Hin'' : In (SendEmailCall f t s h x) (handled evs ++ rest))
      by (apply in_or_app; now left).
    rewrite <- Hsplit in Hin''.
    apply In_imap in Hin'' as (j & c & Heq & _).
    unfold expected_step in Heq.
    destruct (truthy (dict_get c "email")); [|discriminate].
    injection Heq as _ _ _ _ ->.
    now destruct Htext as [-> | ->].
Qed.

Lemma unreadable_text_template_is_not_fatal_witness :
  exists evs : list event,
    trace (snd (main text_args no_text_file initial_state)) = evs
    /\ length (handled evs) = 3%nat
    /\ In (SendEmailCall "me@example.org" (VStr "bob@example.org")
             "Hello Bob" (Some "<p>Hello Bob</p>") None) evs.
Proof.
  destruct (unreadable_text_template_is_not_fatal text_args no_text_file
              initial_state "<p>Hello $name</p>" eq_refl
              (or_introl eq_refl))
    as (evs & Htr & _ & Hlen & _).
  exists evs. split; [exact Htr|]. split; [exact (Hlen eq_refl)|].
  cbn [initial_state trace app] in Htr. rewrite <- Htr.
  vm_compute. auto 20.
Defined.

(** X11. A run of [main] whose contacts all lack an address never
    touches the SMTP server: no connection is attempted and [disconnect]
    has nothing to close; [main] returns normally. *)
Theorem main_without_addresses_never_connects (args : Args) (E : Env)
    (st : State) :
  Forall (fun c => truthy (dict_get c "email") = false) (loaded_rows E args) ->
  exists evs : list event,
    fst (main args E st) = Ret tt
    /\ trace (snd (main args E st)) = trace st ++ evs
    /\ existsb send_event evs = false.
Proof.
  intros Hnone.
  destruct (main_phases args E st) as (loads & bulk & closing & Htr & Hloads & H).
  exists (loads ++ bulk ++ closing).
  assert (Hl : existsb send_event loads = false).
  { clear -Hloads. induction loads as [|ev l IH]; [reflexivity|].
    cbn [forallb existsb] in *. apply andb_prop in Hloads as [Hev Hl].
    rewrite (IH Hl), orb_false_r.
    destruct ev as [[]| | | | | |]; cbn in Hev |- *; congruence. }
  rewrite !existsb_app, Hl. cbn [orb].
  destruct (loaded_html E args) as [content|];
    [destruct (loaded_rows E args) as [|row rows] eqn:Hrows|].
  - destruct H as (-> & -> & Hret). split; [exact Hret|].
    split; [exact Htr|reflexivity].
  - destruct H as (st0 & r & st1 & Hs0 & _ & Hbulk & Htr1 & -> & _ & Hresult).
    destruct (no_address_no_transport_run (sender_of args)
                (arg_from_email args) (row :: rows) (arg_subject args)
                content (loaded_text E args) (arg_delay args) (arg_test args)
                (arg_max_emails args) E st0 Hnone)
      as (st1' & Hrun & Hsession & _ & Htr').
    rewrite Hbulk in Hrun. injection Hrun as -> <-.
    rewrite Htr1 in Htr'. apply app_inv_head in Htr'.
    assert (Hclosed : smtp_session st1 = None) by congruence.
    unfold closing_events in Htr |- *. rewrite Hclosed in Htr |- *.
    split.
    { rewrite Hresult. unfold EmailSender.disconnect, bind, get_session.
      rewrite Hclosed. reflexivity. }
    split; [exact Htr|].
    rewrite Htr'. unfold opening_logs.
    rewrite !existsb_app, existsb_warnings.
    now destruct (test_limit_applies _ _).
  - destruct H as (-> & -> & Hret). split; [exact Hret|].
    split; [exact Htr|reflexivity].
Qed.

Lemma main_without_addresses_never_connects_witness :
  fst (main sample_args no_addresses initial_state) = Ret tt
  /\ existsb send_event (trace (snd (main sample_args no_addresses
                                       initial_state))) = false.
Proof.
  destruct (main_without_addresses_never_connects sample_args no_addresses
              initial_state)
    as (evs & Hret & Htr & Hquiet).
  { repeat constructor. }
  split; [exact Hret|]. rewrite Htr. exact Hquiet.
Defined.

(** X12. Once the command line is parsed, two exceptions only can leave
    [main]: that of the [quit] of [disconnect], which is then the last
    event of the run, and that of a pause of the loop, which leaves
    [main] after [disconnect] has run.  [main] returns normally in every
    other run, also when templates or contacts cannot be loaded and when
    every send fails. *)
Theorem main_raises_only_from_quit_or_pause (args : Args) (E : Env)
    (st : State) :
  match fst (main args E st) with
  | Ret _ => True
  | Raise e =>
      (e = SMTPException SMTP_quit
       /\ last (trace (snd (main args E st))) = Some (Smtp SMTP_quit false))
      \/ (sleep_outcome E (arg_delay args) = Some e
          /\ pauses_return E (arg_delay args) = false
          /\ exists st1 : State,
               last (trace st1) = Some (Sleep (arg_delay args))
               /\ trace (snd (main args E st))
                  = trace st1 ++ closing_events E st1)
  end.
Proof.
  destruct (main_phases args E st) as (loads & bulk & closing & Htr & _ & H).
  destruct (loaded_html E args) as [content|];
    [destruct (loaded_rows E args) as [|row rows]|];
    try (destruct H as (_ & _ & ->); exact I).
  destruct H as (st0 & r & st1 & _ & Htr0 & Hbulk & Htr1 & -> & Hstate
                 & Hresult).
  destruct (disconnect_spec (sender_of args) E st1) as [Htrace Hquit].
  rewrite Hresult, Hquit.
  assert (Hpause : forall e : exn,
             r = Raise e ->
             sleep_outcome E (arg_delay args) = Some e
             /\ pauses_return E (arg_delay args) = false
             /\ exists st1' : State,
                  last (trace st1') = Some (Sleep (arg_delay args))
                  /\ trace (snd (main args E st))
                     = trace st1' ++ closing_events E st1').
  { intros e ->.
    destruct (send_bulk_emails_outcome (sender_of args) (arg_from_email args)
                (row :: rows) (arg_subject args) content (loaded_text E args)
                (arg_delay args) (arg_test args) (arg_max_emails args) E st0)
      as (r' & st1' & evs & Hrun & Htr' & _ & _ & _ & _ & Hr & _).
    rewrite Hbulk in Hrun. injection Hrun as <- <-.
    destruct Hr as (Hsleep & Hp & _ & Hlast).
    split; [exact Hsleep|]. split; [exact Hp|].
    exists st1. split; [now rewrite Htr', last_app, Hlast|].
    now rewrite Hstate. }
  destruct (smtp_session st1) eqn:Hsession.
  - destruct (smtp_ok E (smtp_calls st1)) eqn:Hok.
    + destruct r as [counts|e]; [exact I|]. right. now apply Hpause.
    + left. split; [reflexivity|].
      rewrite Hstate, Htrace. unfold closing_events.
      rewrite Hsession, Hok. apply last_snoc.
  - destruct r as [counts|e]; [exact I|]. right. now apply Hpause.
Qed.

Lemma main_raises_only_from_quit_or_pause_witness :
  fst (main sample_args clock_refuses initial_state) = Raise ClockOSError
  /\ sleep_outcome clock_refuses 5 = Some ClockOSError
  /\ last (trace (snd (main sample_args clock_refuses initial_state)))
     = Some (Log LogSmtpDisconnected).
Proof.
  assert (Hraises : fst (main sample_args clock_refuses initial_state)
                    = Raise ClockOSError) by (vm_compute; reflexivity).
  pose proof (main_raises_only_from_quit_or_pause sample_args clock_refuses
                initial_state) as Hcause.
  rewrite Hraises in Hcause.
  destruct Hcause as [[Hquit _]|(Hsleep & _ & _)]; [discriminate|].
  split; [exact Hraises|]. split; [exact Hsleep|].
  vm_compute. reflexivity.
Defined.

(** X13. [main] reads before it sends: once [send_email] has been
    called or an SMTP operation performed, no template or contact source
    is opened any more. *)
Theorem main_loads_before_it_sends (args : Args) (E : Env) (st : State) :
  exists evs : list event,
    trace (snd (main args E st)) = trace st ++ evs
    /\ (forall (pre : list event) (ev : event) (post : list event),
        evs = pre ++ ev :: post -> send_event ev = true ->
        existsb load_event post = false).
Proof.
  destruct (main_phases args E st) as (loads & bulk & closing & Htr & Hloads & H).
  exists (loads ++ bulk ++ closing). split; [exact Htr|].
  assert (Hrest : existsb load_event (bulk ++ closing) = false).
  { destruct (loaded_html E args) as [content|];
      [destruct (loaded_rows E args) as [|row rows]|];
      try (destruct H as (-> & -> & _); reflexivity).
    destruct H as (st0 & r & st1 & _ & _ & Hbulk & Htr1 & -> & _).
    destruct (send_bulk_emails_effects (sender_of args) (arg_from_email args)
                (row :: rows) (arg_subject args) content (loaded_text E args)
                (arg_delay args) (arg_test args) (arg_max_emails args) E st0)
      as (r' & st1' & body & Hrun & Htr' & Hev & _).
    rewrite Hbulk in Hrun. injection Hrun as <- <-.
    rewrite Htr1 in Htr'. apply app_inv_head in Htr'. subst bulk.
    rewrite !existsb_app.
    assert (Hbody : existsb load_event body = false).
    { clear -Hev. induction body as [|ev l IH]; [reflexivity|].
      cbn [forallb existsb] in *. apply andb_prop in Hev as [Hev Hl].
      rewrite (IH Hl), orb_false_r.
      destruct ev as [[]| | | | | |]; cbn in Hev |- *; congruence. }
    rewrite Hbody. unfold opening_logs, closing_events.
    destruct r as [[sent failed]|e], (test_limit_applies _ _),
      (smtp_session st1);
      try destruct (smtp_ok E (smtp_calls st1)); reflexivity. }
  intros pre ev post Heq Hsend.
  assert (Hsuffix : forall l : list event,
             existsb load_event (l ++ post) = false ->
             existsb load_event post = false).
  { intros l. rewrite existsb_app. now intros [_ ?]%orb_false_elim. }
  apply app_eq_app in Heq as [l [[Heq1 Heq2]|[Heq1 Heq2]]].
  - destruct l as [|e l].
    + cbn [app] in Heq2. rewrite <- Heq2 in Hrest.
      cbn [existsb] in Hrest. now apply orb_false_elim in Hrest.
    + cbn [app] in Heq2. injection Heq2 as <- _.
      rewrite Heq1, forallb_app in Hloads.
      apply andb_prop in Hloads as [_ Hloads].
      cbn [forallb] in Hloads. apply andb_prop in Hloads as [Hev _].
      destruct ev as [[]| | | | | |]; cbn in Hev, Hsend; discriminate.
  - rewrite Heq2 in Hrest. apply (Hsuffix (l ++ [ev])).
    now rewrite <- app_assoc.
Qed.

Lemma main_loads_before_it_sends_witness :
  forallb (fun ev => negb (load_event ev))
    (drop 4 (trace (snd (main sample_args starttls_refused initial_state))))
  = true
  /\ existsb load_event
       (take 4 (trace (snd (main sample_args starttls_refused initial_state))))
     = true.
Proof.
  destruct (main_loads_before_it_sends sample_args starttls_refused
              initial_state)
    as (evs & Htr & Horder).
  cbn [initial_state trace app] in Htr.
  split; [|vm_compute; reflexivity].
  assert (Hpost : existsb load_event
                    (drop 5 (trace (snd (main sample_args starttls_refused
                                           initial_state)))) = false).
  { apply (Horder (take 4 evs)
             (SendEmailCall "me@example.org" (VStr "ann@example.org")
                "Hello Ann" (Some "<p>Hello Ann</p>") None)).
    - rewrite <- Htr. vm_compute. reflexivity.
    - reflexivity. }
  revert Hpost. vm_compute. reflexivity.
Defined.

(** X14. [disconnect] does not forget the session: [smtp_session] is
    after it what it was before.  Without a session it does nothing;
    with one it performs one SMTP operation, [quit], and logs the
    disconnection when [quit] returned.  So a [send_email] that follows a
    [disconnect] does not connect again: it hands its message to the
    session that was closed. *)
Theorem disconnect_keeps_session (self : EmailSender.t) (E : Env)
    (st : State) :
  let st' := snd (EmailSender.disconnect self E st) in
  smtp_session st' = smtp_session st
  /\ trace st' = trace st ++ closing_events E st
  /\ smtp_calls st' = (smtp_calls st + count is_smtp (closing_events E st))%nat
  /\ count is_smtp (closing_events E st)
     = match smtp_session st with Some _ => 1%nat | None => 0%nat end
  /\ (forall (from_email : string) (to_email : value) (subject html : string)
        (message_text : option string),
      smtp_session st <> None ->
      exists (b : bool) (st2 : State) (evs : list event),
        EmailSender.send_email self from_email to_email subject (Some html)
          message_text E st' = (Ret b, st2)
        /\ trace st2 = trace st' ++ evs
        /\ count opened evs = 0%nat
        /\ count is_smtp evs = 1%nat).
Proof.
  cbv zeta.
  assert (Hkeep : smtp_session (snd (EmailSender.disconnect self E st))
                  = smtp_session st).
  { run_prims. destruct (smtp_session st) eqn:Hsession;
      [|cbn [snd]; exact Hsession].
    destruct (smtp_ok E (smtp_calls st)); cbn [snd smtp_session];
      exact Hsession. }
  split; [exact Hkeep|]. split; [apply disconnect_spec|].
  split; [|split].
  - unfold closing_events. run_prims.
    destruct (smtp_session st); cbn [snd smtp_calls]; [|cbn; lia].
    destruct (smtp_ok E (smtp_calls st)); cbn; lia.
  - unfold closing_events. destruct (smtp_session st); [|reflexivity].
    now destruct (smtp_ok E (smtp_calls st)).
  - intros from_email to_email subject html message_text Hsession.
    rewrite <- Hkeep in Hsession.
    set (st' := snd (EmailSender.disconnect self E st)) in *.
    clearbody st'. clear Hkeep. run_prims.
    destruct (smtp_session st') as [session|]; [|congruence].
    cbn [smtp_session smtp_calls trace].
    destruct (smtp_ok E (smtp_calls st'));
      eexists _, _, _; (split; [reflexivity|]);
      cbn [trace]; rewrite <- ?app_assoc; (split; [reflexivity|]);
      split; reflexivity.
Qed.

Lemma disconnect_keeps_session_witness :
  let st1 :=
    snd (EmailSender.send_email sample_sender "me@example.org"
           (VStr "ann@example.org") "Hello" (Some "<p>Hello</p>") None
           smtp_up initial_state) in
  let st2 := snd (EmailSender.disconnect sample_sender smtp_up st1) in
  smtp_session st2 = Some (SMTP_session "smtp.example.org" 587)
  /\ exists (b : bool) (st3 : State) (evs : list event),
       EmailSender.send_email sample_sender "me@example.org"
         (VStr "bob@example.org") "Hello" (Some "<p>Hello</p>") None
         smtp_up st2 = (Ret b, st3)
       /\ trace st3 = trace st2 ++ evs
       /\ count opened evs = 0%nat
       /\ count is_smtp evs = 1%nat.
Proof.
  cbv zeta.
  destruct (disconnect_keeps_session sample_sender smtp_up
              (snd (EmailSender.send_email sample_sender "me@example.org"
                      (VStr "ann@example.org") "Hello" (Some "<p>Hello</p>")
                      None smtp_up initial_state)))
    as (Hkeep & _ & _ & _ & Hnext).
  split; [rewrite Hkeep; vm_compute; reflexivity|].
  apply Hnext. vm_compute. discriminate.
Defined.

(** ** The fields a template reads *)

Lemma render_agree (c1 c2 : Contact) (t : Template.token) :
  (forall id : string, token_name t = Some id -> c1 !! id = c2 !! id) ->
  Template.render c1 t = Template.render c2 t.
Proof.
  intros Hagree. destruct t as [c|[|id|id|]]; try reflexivity;
    cbn [Template.render Template.convert];
    now rewrite (Hagree id eq_refl).
Qed.

Lemma render_tokens_agree (c1 c2 : Contact) (ts : list Template.token) :
  (forall id : string, In id (token_names ts) -> c1 !! id = c2 !! id) ->
  Template.concat (map (Template.render c1) ts)
  = Template.concat (map (Template.render c2) ts).
Proof.
  induction ts as [|t ts IH]; intros Hagree; [reflexivity|].
  cbn [map Template.concat]. cbn [token_names] in Hagree.
  rewrite (render_agree c1 c2 t), IH; [reflexivity| |].
  - intros id Hin. apply Hagree.
    destruct (token_name t); [now right|exact Hin].
  - intros id Hid. apply Hagree. rewrite Hid. now left.
Qed.

Lemma safe_substitute_agree (c1 c2 : Contact) (template : string) :
  (forall id : string, In id (names template) -> c1 !! id = c2 !! id) ->
  Template.safe_substitute template c1 = Template.safe_substitute template c2.
Proof.
  intros Hagree. unfold Template.safe_substitute.
  rewrite !sub_scan. now apply render_tokens_agree.
Qed.

Lemma span_id_all_id_chars (s : string) :
  Template.all_id_chars (fst (Template.span_id s)) = true.
Proof.
  induction s as [|c s IH]; [reflexivity|].
  cbn [Template.span_id]. destruct (Template.id_char c) eqn:Hc; [|reflexivity].
  destruct (Template.span_id s) as [id tail]. cbn [fst] in IH |- *.
  cbn [Template.all_id_chars]. now rewrite Hc, IH.
Qed.

(** The pattern only captures identifiers. *)
Lemma match_after_dollar_identifier (rest id : string) :
  token_name (Template.Match (Template.match_after_dollar rest)) = Some id ->
  Template.is_identifier id = true.
Proof.
  unfold Template.match_after_dollar.
  destruct rest as [|c tail]; [discriminate|].
  destruct (Template.is_dollar c); [discriminate|].
  destruct (Template.id_start c) eqn:Hc.
  { cbn [token_name]. intros [= <-].
    pose proof (span_id_all_id_chars tail) as Hall.
    cbn [Template.span_id]. rewrite (id_start_id_char c Hc).
    destruct (Template.span_id tail) as [id tail']. cbn [fst] in Hall |- *.
    cbn [Template.is_identifier]. now rewrite Hc, Hall. }
  destruct (Ascii.eqb c "{"); [|discriminate].
  destruct tail as [|c' tail']; [discriminate|].
  destruct (Template.id_start c') eqn:Hc'; [|discriminate].
  pose proof (span_id_all_id_chars tail') as Hall.
  cbn [Template.span_id]. rewrite (id_start_id_char c' Hc').
  destruct (Template.span_id tail') as [id' [|c'' post]];
    cbn [fst] in Hall; [discriminate|].
  destruct (Ascii.eqb c'' "}"); [|discriminate].
  cbn [token_name]. intros [= <-].
  cbn [Template.is_identifier]. now rewrite Hc', Hall.
Qed.

Lemma scan_names_identifiers (s : string) :
  forall skip : nat,
    Forall (fun id => Template.is_identifier id = true)
      (token_names (Template.scan skip s)).
Proof.
  induction s as [|c s IH]; intros skip; [constructor|].
  cbn [Template.scan]. destruct skip as [|k]; [|apply IH].
  destruct (Template.is_dollar c); cbn [token_names]; [|apply IH].
  destruct (token_name (Template.Match (Template.match_after_dollar s)))
    as [id|] eqn:Hname; [|apply IH].
  constructor; [|apply IH].
  exact (match_after_dollar_identifier s id Hname).
Qed.

Lemma not_named_of_not_identifier (template key : string) :
  Template.is_identifier key = false -> ~ In key (names template).
Proof.
  intros Hkey Hin.
  pose proof (scan_names_identifiers template 0) as Hids.
  rewrite List.Forall_forall in Hids. specialize (Hids key Hin). congruence.
Qed.

(** X15. Personalisation reads the contact only through the fields the
    template names: two contacts that agree on every name that follows a
    dollar in the template, bare or in braces, give the same text.  In
    particular a template that names no field gives the same text for
    every contact. *)
Theorem personalization_reads_named_fields_only (template : string)
    (c1 c2 : Contact) :
  (forall id : string, In id (names template) -> c1 !! id = c2 !! id) ->
  TemplateManager.personalize_message template c1
  = TemplateManager.personalize_message template c2.
Proof.
  intros Hagree. unfold TemplateManager.personalize_message.
  now rewrite (safe_substitute_agree c1 c2 template Hagree).
Qed.

Lemma personalization_reads_named_fields_only_witness :
  names "Dear $name, write to ${email} for $$5" = ["name"; "email"]
  /\ TemplateManager.personalize_message
       "Dear $name, write to ${email} for $$5" ann
     = TemplateManager.personalize_message
         "Dear $name, write to ${email} for $$5"
         (<["city" := VStr "Paris"]> ann).
Proof.
  split; [vm_compute; reflexivity|].
  apply (personalization_reads_named_fields_only
           "Dear $name, write to ${email} for $$5" ann
           (<["city" := VStr "Paris"]> ann)).
  intros id Hin. vm_compute in Hin.
  destruct Hin as [<-|[<-|[]]]; vm_compute; reflexivity.
Defined.

(** X16. The names a template can ask for are ASCII identifiers, so a
    field whose name is none (a CSV column such as [first name] or
    [e-mail]) is never read: adding it to the contact, changing it or
    removing it leaves every personalised text as it is. *)
Theorem field_without_identifier_name_is_never_read (template : string)
    (contact : Contact) :
  Forall (fun id => Template.is_identifier id = true) (names template)
  /\ (forall (key : string) (v : value),
      Template.is_identifier key = false ->
      TemplateManager.personalize_message template (<[key := v]> contact)
      = TemplateManager.personalize_message template contact
      /\ TemplateManager.personalize_message template (delete key contact)
         = TemplateManager.personalize_message template contact).
Proof.
  split; [apply scan_names_identifiers|].
  intros key v Hkey.
  pose proof (not_named_of_not_identifier template key Hkey) as Hnot.
  unfold TemplateManager.personalize_message.
  split; do 3 f_equal; apply safe_substitute_agree; intros id Hin.
  - apply lookup_insert_ne. congruence.
  - apply lookup_delete_ne. congruence.
Qed.

Lemma field_without_identifier_name_is_never_read_witness :
  TemplateManager.personalize_message "Dear ${first name} $name"
    (<["first name" := VStr "Ann"]> ann) smtp_up initial_state
  = (Ret (Some "Dear ${first name} Ann"), initial_state).
Proof.
  destruct (field_without_identifier_name_is_never_read
              "Dear ${first name} $name" ann) as [_ Hignored].
  destruct (Hignored "first name" (VStr "Ann") eq_refl) as [-> _].
  vm_compute. reflexivity.
Defined.

Lemma sub_dollar_free (contact : Contact) (prefix rest : string) :
  dollar_free prefix = true ->
  Template.sub contact 0 (prefix +:+ rest)
  = prefix +:+ Template.sub contact 0 rest.
Proof.
  induction prefix as [|c prefix IH]; intros Hfree; [reflexivity|].
  cbn [dollar_free] in Hfree. apply andb_prop in Hfree as [Hc Hfree].
  apply negb_true_iff in Hc.
  rewrite !append_cons. cbn [Template.sub]. rewrite Hc.
  now rewrite (IH Hfree).
Qed.

Lemma append_empty (s : string) : s +:+ "" = s.
Proof.
  induction s as [|c s IH]; [reflexivity|].
  rewrite append_cons. now rewrite IH.
Qed.

Lemma scan_dollar_free (prefix rest : string) :
  dollar_free prefix = true ->
  token_names (Template.scan 0 (prefix +:+ rest))
  = token_names (Template.scan 0 rest).
Proof.
  induction prefix as [|c prefix IH]; intros Hfree; [reflexivity|].
  cbn [dollar_free] in Hfree. apply andb_prop in Hfree as [Hc Hfree].
  apply negb_true_iff in Hc.
  rewrite append_cons. cbn [Template.scan]. rewrite Hc.
  cbn [token_names token_name]. exact (IH Hfree).
Qed.

(** X17. Text without a dollar passes through personalisation as it
    is, for every contact and from every state: a template that
    contains none comes back unchanged and names no field, and what
    precedes the first dollar of a template is copied to the output. *)
Theorem text_without_dollar_is_copied (prefix rest : string)
    (contact : Contact) (E : Env) (st : State) :
  dollar_free prefix = true ->
  TemplateManager.personalize_message prefix contact E st
  = (Ret (Some prefix), st)
  /\ names prefix = []
  /\ TemplateManager.personalize_message (prefix +:+ rest) contact E st
     = (Ret (Some (prefix +:+ Template.safe_substitute rest contact)), st)
  /\ names (prefix +:+ rest) = names rest.
Proof.
  intros Hfree. rewrite !personalize_message_run.
  unfold Template.safe_substitute, names, Template.tokens.
  pose proof (sub_dollar_free contact prefix "" Hfree) as Hsub.
  pose proof (scan_dollar_free prefix "" Hfree) as Hscan.
  rewrite append_empty in Hsub, Hscan. cbn [Template.sub] in Hsub.
  rewrite append_empty in Hsub.
  split; [now rewrite Hsub|]. split; [exact Hscan|].
  split; [now rewrite (sub_dollar_free contact prefix rest Hfree)|].
  exact (scan_dollar_free prefix rest Hfree).
Qed.

Lemma text_without_dollar_is_copied_witness :
  TemplateManager.personalize_message "Newsletter, 5 EUR" ann smtp_up
    initial_state
    = (Ret (Some "Newsletter, 5 EUR"), initial_state)
  /\ TemplateManager.personalize_message "Dear $name" ann smtp_up
       initial_state
     = (Ret (Some "Dear Ann"), initial_state).
Proof.
  destruct (text_without_dollar_is_copied "Newsletter, 5 EUR" "" ann smtp_up
              initial_state eq_refl)
    as (Hsame & _).
  destruct (text_without_dollar_is_copied "Dear " "$name" ann smtp_up
              initial_state eq_refl)
    as (_ & _ & Hprefix & _).
  split; [exact Hsame|].
  change "Dear $name" with ("Dear " +:+ "$name").
  rewrite Hprefix. vm_compute. reflexivity.
Defined.
